(** * TinyBlue: a menu navigator for character displays

    A shallow embedding of [src/tinyblue.py] (classes [Item], [Screen] and
    [TinyBlue]) together with the properties of scrolling, rendering and
    stack navigation that its specification states.

    Python integers are [Z]; display text is a [list ascii] because the code
    slices it and indexes it character by character; registry paths are
    [string]s used only as dictionary keys. *)

From Stdlib Require Import ZArith Ascii String Bool Lia.
From stdpp Require Import base list functions gmap strings.

Local Open Scope Z_scope.

(** ** The fragment of Python the program relies on *)

Module Py.

(** The exceptions the program can raise. *)
Inductive exn : Type :=
| TypeError (msg : string)
| ZeroDivisionError
| IndexError.

(** The outcome of evaluating an expression: a value or a raised exception. *)
Inductive result (A : Type) : Type :=
| Ok (a : A)
| Raise (e : exn).
Arguments Ok {A} a.
Arguments Raise {A} e.

Definition bind {A B} (r : result A) (k : A -> result B) : result B :=
  match r with
  | Ok a => k a
  | Raise e => Raise e
  end.

(** [len(l)] *)
Definition len {A} (l : list A) : Z := Z.of_nat (length l).

(** [a % b] on integers: floored remainder, [ZeroDivisionError] on [b = 0]. *)
Definition mod_ (a b : Z) : result Z :=
  if b =? 0 then Raise ZeroDivisionError else Ok (a mod b).

(** [l[i]]: a negative index counts from the end; out of range raises. *)
Definition getitem {A} (l : list A) (i : Z) : result A :=
  let j := if i <? 0 then i + len l else i in
  if j <? 0 then Raise IndexError
  else match l !! Z.to_nat j with
       | Some x => Ok x
       | None => Raise IndexError
       end.

(** [s[0:n]]: a negative stop counts from the end, and the stop is clamped
    to the range of the sequence. *)
Definition slice_to {A} (s : list A) (n : Z) : list A :=
  take (Z.to_nat (if n <? 0 then n + len s else n)) s.

(** [s[1:]] *)
Definition slice_from1 {A} (s : list A) : list A := drop 1 s.

(** [c * k] for a one-character string [c]: empty when [k <= 0]. *)
Definition repeat_char (c : ascii) (k : Z) : list ascii :=
  replicate (Z.to_nat k) c.

(** [range(n)] *)
Definition range (n : Z) : list Z := seqZ 0 n.

(** A comprehension or loop whose body may raise: stops at the first
    exception. *)
Fixpoint for_each {A B} (f : A -> result B) (l : list A) : result (list B) :=
  match l with
  | [] => Ok []
  | x :: l' =>
      bind (f x) (fun y => bind (for_each f l') (fun ys => Ok (y :: ys)))
  end.

End Py.

Import Py.

Notation "'let*' x ':=' r 'in' k" := (Py.bind r (fun x => k))
  (at level 10, x name, r at level 100, k at level 200, only parsing).

Section Model.

(** The callables stored in [Item.on_click]: kept abstract, and run by an
    interpreter given further down. *)
Context {Action : Type}.

(** ** class Item *)

Record Item : Type := mkItem {
  text : list ascii;
  on_click : option Action;   (* [None], or a callable *)
  update : bool;
  is_back_button : bool
}.

(** [Item(text, on_click, is_back_button)] *)
Definition Item_init (text : list ascii) (on_click : option Action)
    (is_back_button : bool) : Item :=
  {| text := text; on_click := on_click; update := false;
     is_back_button := is_back_button |}.

Definition Item_set_text (new_text : list ascii) (self : Item) : Item :=
  {| text := new_text; on_click := on_click self; update := false;
     is_back_button := is_back_button self |}.

Definition Item_get_visible_text (self : Item) (num_chars : Z) : list ascii :=
  let text := slice_to (text self) num_chars in
  text ++ repeat_char " " (num_chars - len text).

(** [callable(item.on_click)] *)
Definition callable (f : option Action) : bool :=
  match f with Some _ => true | None => false end.

(** ** class Screen *)

Record Screen : Type := mkScreen {
  items : list Item;
  top_line : Z;
  line_index : Z
}.

(** The values a caller can hand to the [Screen] constructor. *)
#[warnings="-register-all"]
Inductive pyval : Type :=
| PyNone
| PyInt (n : Z)
| PyStr (s : list ascii)
| PyItem (it : Item)
| PyList (l : list pyval).

Definition isinstance_Item (v : pyval) : bool :=
  match v with PyItem _ => true | _ => false end.

Definition as_Item (v : pyval) : option Item :=
  match v with PyItem it => Some it | _ => None end.

(** [Screen(items)] *)
Definition Screen_init (items : pyval) : result Screen :=
  match items with
  | PyList l =>
      if forallb isinstance_Item l
      then Ok {| items := omap as_Item l; top_line := 0; line_index := 0 |}
      else Raise (TypeError "All items must be instances of Item.")
  | _ => Raise (TypeError "Items must be a list.")
  end.

Definition Screen_scroll (direction num_lines : Z) (self : Screen)
    : result Screen :=
  let* li := mod_ (line_index self + len (items self) + direction)
                  (len (items self)) in
  if li >=? top_line self + num_lines then
    Ok {| items := items self; top_line := li - num_lines + 1;
          line_index := li |}
  else if li <? top_line self then
    Ok {| items := items self; top_line := li; line_index := li |}
  else
    Ok {| items := items self; top_line := top_line self; line_index := li |}.

(** One iteration of the loop of [Screen.render]. *)
Definition Screen_render_row (self : Screen) (num_columns i : Z)
    : result (list ascii) :=
  if top_line self + i <? len (items self) then
    let* item := getitem (items self) (top_line self + i) in
    let cursor :=
      if top_line self + i =? line_index self then
        if callable (on_click item) then "="%char
        else if is_back_button item then "<"%char
        else ">"%char
      else " "%char in
    Ok (cursor :: Item_get_visible_text item (num_columns - 1))
  else
    Ok (repeat_char " " num_columns).

Definition Screen_render (num_lines num_columns : Z) (self : Screen)
    : result (list (list ascii)) :=
  for_each (Screen_render_row self num_columns) (range num_lines).

Definition Screen_get_selected_item (self : Screen) : result Item :=
  getitem (items self) (line_index self).

Definition Screen_reset (self : Screen) : Screen :=
  {| items := items self; top_line := 0; line_index := 0 |}.

(** A sequence of [scroll] calls on one screen, all with the same number of
    display lines; an exception ends the sequence. *)
Fixpoint Screen_scrolls (directions : list Z) (num_lines : Z)
    (self : Screen) : result Screen :=
  match directions with
  | [] => Ok self
  | d :: ds =>
      let* self' := Screen_scroll d num_lines self in
      Screen_scrolls ds num_lines self'
  end.

(** The ranges the constructor establishes and [scroll] and [reset] keep:
    the window never starts before the first item, and the selection is an
    index of the list (or 0 on a list with no item). *)
Definition Screen_valid (self : Screen) : Prop :=
  0 <= top_line self /\
  0 <= line_index self /\
  (line_index self < len (items self) \/ line_index self = 0).

(** The selected line lies in the window of [num_lines] lines. *)
Definition in_window (num_lines : Z) (self : Screen) : Prop :=
  top_line self <= line_index self < top_line self + num_lines.

(** ** class TinyBlue *)

(** The display driver [I2cLcd] is an external collaborator: it is modelled
    by the calls it receives. *)
Inductive lcd_call : Type :=
| Lcd_clear
| Lcd_custom_char (location : Z) (charmap : list Z)
| Lcd_move_to (cursor_x cursor_y : Z)
| Lcd_putchar (c : ascii)
| Lcd_putstr (s : list ascii).

(** [Screen] objects are shared by reference between the registry, the
    stack and the caller: a reference is a [loc], and [heap] gives the
    object each reference designates. *)
Abbreviation loc := nat (only parsing).

Record TinyBlue : Type := mkTinyBlue {
  lcd : list lcd_call;              (* calls made to [self.lcd], oldest first *)
  num_lines : Z;
  num_columns : Z;
  screens : gmap string loc;
  screen_stack : list loc;
  screen_root_path : string;
  auto_render : bool;
  heap : loc -> Screen
}.

Definition set_lcd (v : list lcd_call) (t : TinyBlue) : TinyBlue :=
  mkTinyBlue v (num_lines t) (num_columns t) (screens t) (screen_stack t)
    (screen_root_path t) (auto_render t) (heap t).

Definition set_screens (v : gmap string loc) (t : TinyBlue) : TinyBlue :=
  mkTinyBlue (lcd t) (num_lines t) (num_columns t) v (screen_stack t)
    (screen_root_path t) (auto_render t) (heap t).

Definition set_screen_stack (v : list loc) (t : TinyBlue) : TinyBlue :=
  mkTinyBlue (lcd t) (num_lines t) (num_columns t) (screens t) v
    (screen_root_path t) (auto_render t) (heap t).

Definition set_heap (v : loc -> Screen) (t : TinyBlue) : TinyBlue :=
  mkTinyBlue (lcd t) (num_lines t) (num_columns t) (screens t)
    (screen_stack t) (screen_root_path t) (auto_render t) v.

(** A method of [TinyBlue]: it may mutate the object and the screens it
    refers to, and it returns or raises. What was mutated before an
    exception stays mutated. *)
Definition M (A : Type) : Type := TinyBlue -> TinyBlue * result A.

Definition M_ret {A} (a : A) : M A := fun t => (t, Ok a).

Definition M_bind {A B} (m : M A) (k : A -> M B) : M B :=
  fun t =>
    match m t with
    | (t', Ok a) => k a t'
    | (t', Raise e) => (t', Raise e)
    end.

Definition M_lift {A} (r : result A) : M A := fun t => (t, r).

Definition M_get {A} (f : TinyBlue -> A) : M A := fun t => (t, Ok (f t)).

Definition M_modify (f : TinyBlue -> TinyBlue) : M unit :=
  fun t => (f t, Ok tt).

Local Notation "'let!' x ':=' m 'in' k" := (M_bind m (fun x => k))
  (at level 10, x name, m at level 100, k at level 200, only parsing).
Local Notation "m ';;' k" := (M_bind m (fun _ => k))
  (at level 100, k at level 200, right associativity, only parsing).

(** A [for] loop over [l] whose body is a method. *)
Fixpoint M_for {A} (body : A -> M unit) (l : list A) : M unit :=
  match l with
  | [] => M_ret tt
  | x :: l' => body x;; M_for body l'
  end.

Definition lcd_do (c : lcd_call) : M unit :=
  M_modify (fun t => set_lcd (lcd t ++ [c]) t).

(** [TinyBlue(lcd, num_lines, num_columns)] *)
Definition TinyBlue_init (lcd0 : list lcd_call) (num_lines num_columns : Z)
    (heap0 : loc -> Screen) : TinyBlue :=
  {| lcd := lcd0 ++
       [ Lcd_clear;
         Lcd_custom_char 0 [0x00; 0x08; 0x04; 0x02; 0x04; 0x08; 0x00; 0x00];
         Lcd_custom_char 1 [0x00; 0x08; 0x04; 0x1E; 0x04; 0x08; 0x00; 0x00];
         Lcd_custom_char 2 [0x00; 0x04; 0x08; 0x1E; 0x08; 0x04; 0x00; 0x00] ];
     num_lines := num_lines;
     num_columns := num_columns;
     screens := ∅;
     screen_stack := [];
     screen_root_path := "/";
     auto_render := true;
     heap := heap0 |}.

Definition TinyBlue_add_screen (path : string) (screen : loc) : M unit :=
  M_modify (fun t => set_screens (<[path := screen]> (screens t)) t);;
  let! root := M_get screen_root_path in
  if String.eqb path root
  then M_modify (set_screen_stack [screen])
  else M_ret tt.

Definition TinyBlue_top_screen : M loc :=
  let! stack := M_get screen_stack in
  if len stack =? 0
  then M_lift (Raise (TypeError "No screen to show. Call add_screen first"))
  else M_lift (getitem stack (len stack - 1)).

(** The loop body of [TinyBlue.render]. *)
Definition TinyBlue_render_line (lines : list (list ascii)) (y : Z) : M unit :=
  let! line := M_lift (getitem lines y) in
  lcd_do (Lcd_move_to 0 y);;
  let! c := M_lift (getitem line 0) in
  (if Ascii.eqb c ">" then lcd_do (Lcd_putchar (ascii_of_nat 0))
   else if Ascii.eqb c "=" then lcd_do (Lcd_putchar (ascii_of_nat 1))
   else if Ascii.eqb c "<" then lcd_do (Lcd_putchar (ascii_of_nat 2))
   else lcd_do (Lcd_putchar " "));;
  let! line' := M_lift (getitem lines y) in
  lcd_do (Lcd_putstr (slice_from1 line')).

Definition TinyBlue_render : M unit :=
  let! top := TinyBlue_top_screen in
  let! scr := M_get (fun t => heap t top) in
  let! n := M_get num_lines in
  let! c := M_get num_columns in
  let! lines := M_lift (Screen_render n c scr) in
  M_for (TinyBlue_render_line lines) (range (len lines)).

(** [if self.auto_render: self.render()] *)
Definition render_if_auto : M unit :=
  let! auto := M_get auto_render in
  if auto then TinyBlue_render else M_ret tt.

Definition TinyBlue_open_screen (path : string) : M unit :=
  let! registry := M_get screens in
  match registry !! path with
  | Some screen =>
      M_modify (fun t => set_screen_stack (screen_stack t ++ [screen]) t);;
      render_if_auto
  | None => M_ret tt
  end.

Definition TinyBlue_scroll (direction : Z) : M unit :=
  let! top := TinyBlue_top_screen in
  let! scr := M_get (fun t => heap t top) in
  let! n := M_get num_lines in
  let! scr' := M_lift (Screen_scroll direction n scr) in
  M_modify (fun t => set_heap (<[top := scr']> (heap t)) t);;
  render_if_auto.

(** [self.screen_stack.pop()] *)
Definition stack_pop : M unit :=
  let! stack := M_get screen_stack in
  match stack with
  | [] => M_lift (Raise IndexError)
  | _ => M_modify (set_screen_stack (removelast stack))
  end.

Definition TinyBlue_back : M unit :=
  let! stack := M_get screen_stack in
  if len stack >? 1 then
    let! top := TinyBlue_top_screen in
    M_modify (fun t => set_heap (<[top := Screen_reset (heap t top)]> (heap t)) t);;
    stack_pop;;
    render_if_auto
  else M_ret tt.

(** What calling a stored callable does: anything a method can do. *)
Variable call : Action -> M unit.

Definition TinyBlue_select : M unit :=
  let! top := TinyBlue_top_screen in
  let! scr := M_get (fun t => heap t top) in
  let! item := M_lift (Screen_get_selected_item scr) in
  if is_back_button item then TinyBlue_back
  else match on_click item with
       | Some f => call f;; render_if_auto
       | None => M_ret tt
       end.

(** The exception [top_screen] raises on an empty stack. *)
Definition no_screen : exn :=
  TypeError "No screen to show. Call add_screen first".

(** A method that changes nothing but the display. *)
Definition lcd_only {A} (m : M A) : Prop :=
  forall t, fst (m t) = set_lcd (lcd (fst (m t))) t.

(** The calls a [render] makes to the display in state [t]. *)
Definition render_calls (t : TinyBlue) : list lcd_call :=
  drop (length (lcd t)) (lcd (fst (TinyBlue_render t))).

(** Running [m] from [t] ends with a render: the last calls the display
    receives during [m] are those of a [render] of the state [m] ends in. *)
Definition ends_with_render (m : M unit) (t : TinyBlue) : Prop :=
  exists before : list lcd_call,
    lcd (fst (m t)) = lcd t ++ before ++ render_calls (fst (m t)).

(** A method that only adds calls to those the display has received. *)
Definition lcd_appends {A} (m : M A) : Prop :=
  forall t, exists calls, fst (m t) = set_lcd (lcd t ++ calls) t.

(** The character [TinyBlue.render] sends for the cursor [c] of a row: the
    custom characters 0, 1 and 2 for [">"], ["="] and ["<"]. *)
Definition cursor_char (c : ascii) : ascii :=
  if Ascii.eqb c ">" then ascii_of_nat 0
  else if Ascii.eqb c "=" then ascii_of_nat 1
  else if Ascii.eqb c "<" then ascii_of_nat 2
  else " "%char.

(** The calls by which rows are drawn from display row [y] on: for each row
    the position, the cursor character, then the rest of the row. *)
Fixpoint rows_calls (y : Z) (rows : list (list ascii)) : list lcd_call :=
  match rows with
  | [] => []
  | row :: rows' =>
      [Lcd_move_to 0 y;
       Lcd_putchar (cursor_char (default " "%char (head row)));
       Lcd_putstr (slice_from1 row)] ++ rows_calls (y + 1) rows'
  end.

(** The entry points of a navigator. *)
Inductive nav_op : Type :=
| Op_scroll (direction : Z)
| Op_select
| Op_back
| Op_open_screen (path : string)
| Op_render.

Definition run_op (op : nav_op) : M unit :=
  match op with
  | Op_scroll direction => TinyBlue_scroll direction
  | Op_select => TinyBlue_select
  | Op_back => TinyBlue_back
  | Op_open_screen path => TinyBlue_open_screen path
  | Op_render => TinyBlue_render
  end.

(** Entry points called one after the other, each on the state the one
    before left, whether it returned or raised. *)
Fixpoint run_ops (ops : list nav_op) (t : TinyBlue) : TinyBlue :=
  match ops with
  | [] => t
  | op :: ops' => run_ops ops' (fst (run_op op t))
  end.

(** [add_screen] called for each path and screen of a list, in order. *)
Fixpoint add_screens (l : list (string * loc)) (t : TinyBlue) : TinyBlue :=
  match l with
  | [] => t
  | (path, screen) :: l' => add_screens l' (fst (TinyBlue_add_screen path screen t))
  end.

End Model.

Arguments Item : clear implicits.
Arguments Screen : clear implicits.
Arguments pyval : clear implicits.
Arguments TinyBlue : clear implicits.
Arguments M : clear implicits.

(** ** A small menu, after [example_tinyblue.py] *)

Module Demo.

(** The callbacks of the menu open a screen by its path. *)
Inductive action : Type :=
| on_click_open (path : string).

Definition call (f : action) : M action unit :=
  match f with
  | on_click_open path => TinyBlue_open_screen path
  end.

Definition str (s : string) : list ascii := list_ascii_of_string s.

Definition about_items : list (Item action) :=
  [ Item_init (str "Back") None true;
    Item_init (str "GitHub/Saranomy") None false;
    Item_init (str "Tiny1602Menu") None false ].

Definition main_items : list (Item action) :=
  [ Item_init (str "LED") (Some (on_click_open "/led")) false;
    Item_init (str "Temp 27.00C") None false;
    Item_init (str "Free 100KB") None false;
    Item_init (str "About") (Some (on_click_open "/about")) false ].

(** A back button that also carries a callback. *)
Definition both_item : Item action :=
  Item_init (str "Back") (Some (on_click_open "/")) true.

Definition about_screen : Screen action := mkScreen about_items 0 0.
Definition main_screen : Screen action := mkScreen main_items 0 0.
Definition both_screen : Screen action := mkScreen [both_item] 0 0.

(** The objects: [about_screen] at reference 0, [main_screen] at 1. *)
Definition objects : nat -> Screen action :=
  <[0%nat := about_screen]> (<[1%nat := main_screen]> (fun _ => mkScreen [] 0 0)).

(** A navigator on a 2x16 display before any screen is added. *)
Definition fresh : TinyBlue action := TinyBlue_init [] 2 16 objects.

(** [add_screen('/about', about_screen); add_screen('/', main_screen)] *)
Definition tm : TinyBlue action :=
  fst (TinyBlue_add_screen "/" 1%nat
         (fst (TinyBlue_add_screen "/about" 0%nat fresh))).

(** [tm] after [open_screen('/about')]: two screens on the stack,
    [about_screen] on top. *)
Definition tm_about : TinyBlue action :=
  fst (TinyBlue_open_screen "/about" tm).

(** A navigator whose root screen starts with a back button. *)
Definition tm_back_root : TinyBlue action :=
  fst (TinyBlue_add_screen "/" 0%nat fresh).

(** A navigator whose root screen is the empty screen at reference 2. *)
Definition tm_empty_root : TinyBlue action :=
  fst (TinyBlue_add_screen "/" 2%nat fresh).

(** The same on a display declared with no column. *)
Definition tm_no_column : TinyBlue action :=
  fst (TinyBlue_add_screen "/" 2%nat (TinyBlue_init [] 2 0 objects)).

(** [objects] with [both_screen] at reference 3. *)
Definition objects_both : nat -> Screen action :=
  <[3%nat := both_screen]> objects.

(** [main_screen] as root and [both_screen], registered under ["/both"],
    opened above it. *)
Definition tm_both : TinyBlue action :=
  fst (TinyBlue_open_screen "/both"
         (fst (TinyBlue_add_screen "/both" 3%nat
                 (fst (TinyBlue_add_screen "/" 1%nat
                         (TinyBlue_init [] 2 16 objects_both)))))).

End Demo.

(** * Properties of [Screen] *)

Section ScreenProperties.

Context {Action : Type}.
Implicit Types (s : Screen Action) (it : Item Action).

Lemma len_nonneg {A} (l : list A) : 0 <= len l.
Proof. unfold len. lia. Qed.

Lemma len_pos {A} (l : list A) : l <> [] -> 0 < len l.
Proof. destruct l; [congruence | unfold len; simpl; lia]. Qed.

Lemma getitem_nonneg {A} (l : list A) (i : Z) :
  0 <= i -> getitem l i =
    match l !! Z.to_nat i with Some x => Ok x | None => Raise IndexError end.
Proof.
  intros Hi. unfold getitem.
  destruct (Z.ltb_spec i 0); [lia|].
  destruct (Z.ltb_spec i 0); [lia|]. reflexivity.
Qed.

Lemma getitem_nil {A} (i : Z) : getitem (@nil A) i = Raise IndexError.
Proof.
  unfold getitem. rewrite lookup_nil. by repeat case_match.
Qed.

(** What one [scroll] call computes on a screen that has items. *)
Lemma Screen_scroll_nonempty (d n : Z) s :
  items s <> [] ->
  exists s',
    Screen_scroll d n s = Ok s' /\
    items s' = items s /\
    line_index s' = (line_index s + len (items s) + d) mod len (items s) /\
    (top_line s' =
       if line_index s' >=? top_line s + n then line_index s' - n + 1
       else if line_index s' <? top_line s then line_index s'
       else top_line s).
Proof.
  intros Hne. pose proof (len_pos _ Hne) as Hpos.
  unfold Screen_scroll, mod_.
  destruct (Z.eqb_spec (len (items s)) 0) as [E|_]; [lia|]. simpl.
  set (li := (line_index s + len (items s) + d) mod len (items s)).
  destruct (li >=? top_line s + n) eqn:E1.
  - eexists; split; [reflexivity|]. simpl. rewrite E1. auto.
  - destruct (li <? top_line s) eqn:E2.
    + eexists; split; [reflexivity|]. simpl. rewrite E1, E2. auto.
    + eexists; split; [reflexivity|]. simpl. rewrite E1, E2. auto.
Qed.

(** One [scroll] call with at least one display line puts the selection in
    the window, whatever the state before. *)
Lemma Screen_scroll_in_window (d n : Z) s s' :
  1 <= n -> Screen_scroll d n s = Ok s' -> in_window n s'.
Proof.
  intros Hn. unfold Screen_scroll, mod_.
  destruct (len (items s) =? 0); [discriminate|]. simpl.
  set (li := (line_index s + len (items s) + d) mod len (items s)).
  destruct (Z.geb_spec li (top_line s + n)).
  - intros [= <-]. unfold in_window. simpl. lia.
  - destruct (Z.ltb_spec li (top_line s)).
    + intros [= <-]. unfold in_window. simpl. lia.
    + intros [= <-]. unfold in_window. simpl. lia.
Qed.

Lemma Screen_scroll_items (d n : Z) s s' :
  Screen_scroll d n s = Ok s' -> items s' = items s.
Proof.
  unfold Screen_scroll, mod_.
  destruct (len (items s) =? 0); [discriminate|]. simpl.
  repeat case_match; intros [= <-]; reflexivity.
Qed.

Lemma Screen_init_valid (v : pyval Action) s :
  Screen_init v = Ok s -> Screen_valid s.
Proof.
  destruct v; simpl; try discriminate.
  destruct (forallb _ _); [|discriminate].
  intros [= <-]. unfold Screen_valid. simpl. lia.
Qed.

Lemma Screen_reset_valid s : Screen_valid (Screen_reset s).
Proof. unfold Screen_valid. simpl. lia. Qed.

Lemma Screen_scroll_valid (d n : Z) s s' :
  Screen_valid s -> Screen_scroll d n s = Ok s' -> Screen_valid s'.
Proof.
  intros (Ht & Hl & Hr). unfold Screen_scroll, mod_.
  destruct (Z.eqb_spec (len (items s)) 0) as [E|E]; [discriminate|]. simpl.
  pose proof (len_nonneg (items s)).
  pose proof (Z.mod_pos_bound (line_index s + len (items s) + d)
                (len (items s)) ltac:(lia)) as Hm.
  set (li := (line_index s + len (items s) + d) mod len (items s)) in *.
  destruct (Z.geb_spec li (top_line s + n)).
  - intros [= <-]. unfold Screen_valid. simpl. lia.
  - destruct (Z.ltb_spec li (top_line s)).
    + intros [= <-]. unfold Screen_valid. simpl. lia.
    + intros [= <-]. unfold Screen_valid. simpl. lia.
Qed.

Lemma Screen_scrolls_in_window (ds : list Z) (n : Z) s :
  1 <= n -> items s <> [] -> in_window n s ->
  exists s', Screen_scrolls ds n s = Ok s' /\
             items s' = items s /\ in_window n s'.
Proof.
  intros Hn. revert s. induction ds as [|d ds IH]; intros s Hne Hw.
  - exists s. auto.
  - destruct (Screen_scroll_nonempty d n s Hne) as (s1 & E & Hi & _).
    simpl. rewrite E. simpl.
    destruct (IH s1) as (s2 & E2 & Hi2 & Hw2).
    + congruence.
    + eapply Screen_scroll_in_window; eauto.
    + exists s2. rewrite E2. repeat split; try apply Hw2. congruence.
Qed.

Lemma Screen_init_items (its : list (Item Action)) :
  Screen_init (PyList (PyItem <$> its)) = Ok (mkScreen its 0 0).
Proof.
  unfold Screen_init.
  assert (forallb isinstance_Item (PyItem <$> its) = true) as ->.
  { induction its; simpl; auto. }
  f_equal. f_equal.
  induction its as [|a its IH]; csimpl; [done|]. by rewrite IH.
Qed.

(** C1. On a screen built from a non-empty list of items, with at least one
    display line, every sequence of [scroll] calls with directions [+1] or
    [-1] from the initial state runs without exception and ends with
    [top_line <= line_index < top_line + num_lines]. *)
Theorem scroll_keeps_selection_in_window
    (its : list (Item Action)) (num_lines : Z) (directions : list Z) :
  its <> [] ->
  1 <= num_lines ->
  Forall (fun d => d = 1 \/ d = -1) directions ->
  exists s0 s,
    Screen_init (PyList (PyItem <$> its)) = Ok s0 /\
    top_line s0 = 0 /\ line_index s0 = 0 /\
    Screen_scrolls directions num_lines s0 = Ok s /\
    top_line s <= line_index s < top_line s + num_lines.
Proof.
  intros Hne Hn _.
  exists (mkScreen its 0 0).
  destruct (Screen_scrolls_in_window directions num_lines (mkScreen its 0 0))
    as (s & E & _ & Hw); auto.
  { unfold in_window. simpl. lia. }
  exists s. rewrite Screen_init_items. auto.
Qed.



(** C10. The constructor accepts the empty list; on the screen it returns
    every [scroll] call raises [ZeroDivisionError] and [get_selected_item]
    raises [IndexError]. *)
Theorem empty_screen_accepted_but_unusable :
  exists s : Screen Action,
    Screen_init (PyList []) = Ok s /\
    items s = [] /\
    (forall direction num_lines,
       Screen_scroll direction num_lines s = Raise ZeroDivisionError) /\
    Screen_get_selected_item s = Raise IndexError.
Proof.
  exists (mkScreen [] 0 0). repeat split.
Qed.

Lemma all_Items_fmap (l : list (pyval Action)) :
  forallb isinstance_Item l = true -> l = PyItem <$> omap as_Item l.
Proof.
  induction l as [|v l IH]; [done|].
  destruct v; cbn; try discriminate.
  intros H. f_equal. by apply IH.
Qed.

(** C2, as the code has it. The constructor checks only that its argument
    is a list and that every element is an [Item]: it returns a screen
    exactly for such lists, the empty one included, with both indices 0. *)
Theorem Screen_init_accepts_lists_of_items (v : pyval Action) s :
  Screen_init v = Ok s <->
  exists its, v = PyList (PyItem <$> its) /\ s = mkScreen its 0 0.
Proof.
  split.
  - destruct v as [| | | |l]; simpl; try discriminate.
    destruct (forallb isinstance_Item l) eqn:E; [|discriminate].
    intros [= <-]. exists (omap as_Item l). split; [|done].
    f_equal. by apply all_Items_fmap.
  - intros (its & -> & ->). apply Screen_init_items.
Qed.

(** *** Rendering *)

Lemma for_each_total {A B} (f : A -> result B) (l : list A) :
  (forall x, x ∈ l -> exists y, f x = Ok y) ->
  exists ys, for_each f l = Ok ys /\ Forall2 (fun x y => f x = Ok y) l ys.
Proof.
  induction l as [|x l IH]; intros H.
  - exists []. split; [done | constructor].
  - destruct (H x) as (y & Ey); [left|].
    destruct IH as (ys & E & HF); [intros; apply H; by right|].
    exists (y :: ys). simpl. rewrite Ey. simpl. rewrite E. simpl.
    split; [done | by constructor].
Qed.

(** With a width that is not negative the visible text is the stored text
    cut after [num_chars] characters, or filled up with spaces to it. *)
Lemma Item_get_visible_text_spec it (num_chars : Z) :
  0 <= num_chars ->
  Item_get_visible_text it num_chars =
    take (Z.to_nat num_chars) (text it) ++
    replicate (Z.to_nat num_chars - length (text it)) " "%char /\
  len (Item_get_visible_text it num_chars) = num_chars.
Proof.
  intros Hn. unfold Item_get_visible_text, slice_to, repeat_char, len.
  destruct (Z.ltb_spec num_chars 0); [lia|].
  rewrite length_take.
  replace (Z.to_nat (num_chars - Z.of_nat (Z.to_nat num_chars `min` length (text it))))
    with (Z.to_nat num_chars - length (text it))%nat by lia.
  split; [done|].
  rewrite length_app, length_take, length_replicate. lia.
Qed.

(** The row that [render] builds at offset [i] of the window. *)
Lemma Screen_render_row_item s (num_columns : Z) (i : nat) it :
  0 <= top_line s ->
  items s !! Z.to_nat (top_line s + Z.of_nat i) = Some it ->
  Screen_render_row s num_columns (Z.of_nat i) =
    Ok ((if top_line s + Z.of_nat i =? line_index s then
           if callable (on_click it) then "="%char
           else if is_back_button it then "<"%char else ">"%char
         else " "%char)
        :: Item_get_visible_text it (num_columns - 1)).
Proof.
  intros Ht Hit. unfold Screen_render_row.
  pose proof (lookup_lt_Some _ _ _ Hit) as Hlt.
  destruct (Z.ltb_spec (top_line s + Z.of_nat i) (len (items s))) as [_|Hge].
  - rewrite getitem_nonneg by lia. rewrite Hit. reflexivity.
  - unfold len in Hge. lia.
Qed.

Lemma Screen_render_row_blank s (num_columns : Z) (i : nat) :
  len (items s) <= top_line s + Z.of_nat i ->
  Screen_render_row s num_columns (Z.of_nat i) =
    Ok (replicate (Z.to_nat num_columns) " "%char).
Proof.
  intros Hge. unfold Screen_render_row.
  destruct (Z.ltb_spec (top_line s + Z.of_nat i) (len (items s))); [lia|].
  reflexivity.
Qed.

Lemma Screen_render_row_total s (num_columns : Z) (i : nat) :
  0 <= top_line s ->
  exists row, Screen_render_row s num_columns (Z.of_nat i) = Ok row.
Proof.
  intros Ht.
  destruct (items s !! Z.to_nat (top_line s + Z.of_nat i)) as [it|] eqn:E.
  - eexists. by apply Screen_render_row_item.
  - eexists. apply Screen_render_row_blank.
    apply lookup_ge_None in E. unfold len. lia.
Qed.

(** [render] returns one row per display line, each built by the loop body
    at its offset. *)
Lemma Screen_render_rows s (num_lines num_columns : Z) :
  0 <= top_line s ->
  exists rows,
    Screen_render num_lines num_columns s = Ok rows /\
    length rows = Z.to_nat num_lines /\
    forall (i : nat) row,
      rows !! i = Some row ->
      Screen_render_row s num_columns (Z.of_nat i) = Ok row.
Proof.
  intros Ht. unfold Screen_render, range.
  destruct (for_each_total (Screen_render_row s num_columns) (seqZ 0 num_lines))
    as (rows & E & HF).
  { intros x [Hx _]%elem_of_seqZ.
    rewrite <- (Z2Nat.id x) by lia. by apply Screen_render_row_total. }
  exists rows. split; [exact E|].
  pose proof (Forall2_length _ _ _ HF) as Hlen.
  rewrite length_seqZ in Hlen. split; [done|].
  intros i row Hrow.
  destruct (Forall2_lookup_r _ _ _ _ _ HF Hrow) as (x & Hx & Hfx).
  apply lookup_seqZ in Hx as [-> _]. exact Hfx.
Qed.

(** C8. With at least one display line and one column, and a window that
    does not start before the first item, [render] returns exactly
    [num_lines] rows; after its cursor character each row has exactly
    [num_columns - 1] characters, which for a row showing an item are the
    item's text cut to that width or filled up with spaces; a row past the
    last item is [num_columns] spaces. *)
Theorem render_rows_shape s (num_lines num_columns : Z) :
  1 <= num_lines ->
  1 <= num_columns ->
  0 <= top_line s ->
  exists rows,
    Screen_render num_lines num_columns s = Ok rows /\
    len rows = num_lines /\
    forall (i : nat) row,
      rows !! i = Some row ->
      len row = num_columns /\
      len (slice_from1 row) = num_columns - 1 /\
      (forall it,
         items s !! Z.to_nat (top_line s + Z.of_nat i) = Some it ->
         slice_from1 row =
           take (Z.to_nat (num_columns - 1)) (text it) ++
           replicate (Z.to_nat (num_columns - 1) - length (text it))
             " "%char) /\
      (len (items s) <= top_line s + Z.of_nat i ->
       row = replicate (Z.to_nat num_columns) " "%char).
Proof.
  intros Hn Hc Ht.
  destruct (Screen_render_rows s num_lines num_columns Ht)
    as (rows & E & Hlen & Hrows).
  exists rows. split; [exact E|]. split; [unfold len; lia|].
  intros i row Hrow. apply Hrows in Hrow.
  destruct (items s !! Z.to_nat (top_line s + Z.of_nat i)) as [it|] eqn:Hit.
  - rewrite (Screen_render_row_item _ _ _ _ Ht Hit) in Hrow.
    injection Hrow as <-.
    destruct (Item_get_visible_text_spec it (num_columns - 1)) as [Hv Hl];
      [lia|].
    unfold slice_from1. cbn [drop]. rewrite drop_0.
    unfold len in *. cbn [length].
    split; [lia|]. split; [lia|]. split.
    + intros it' [= <-]. exact Hv.
    + intros Hge. apply lookup_lt_Some in Hit. lia.
  - apply lookup_ge_None in Hit.
    rewrite Screen_render_row_blank in Hrow by (unfold len; lia).
    injection Hrow as <-.
    unfold slice_from1, len. rewrite length_drop, length_replicate.
    split; [lia|]. split; [lia|]. split; [intros it' [=] | done].
Qed.

(** What [Screen.render] draws for a selected item with a callable
    [on_click]: its row starts with the glyph of actionable items, ["="],
    whether or not the item is also a back button, because the test for a
    callable comes first. *)
Theorem selected_actionable_row_glyph s (num_lines num_columns : Z)
    (i : nat) it f :
  0 <= top_line s ->
  Z.of_nat i < num_lines ->
  items s !! Z.to_nat (top_line s + Z.of_nat i) = Some it ->
  top_line s + Z.of_nat i = line_index s ->
  on_click it = Some f ->
  exists rows,
    Screen_render num_lines num_columns s = Ok rows /\
    rows !! i =
      Some ("="%char :: Item_get_visible_text it (num_columns - 1)).
Proof.
  intros Ht Hi Hit Hsel Hf.
  destruct (Screen_render_rows s num_lines num_columns Ht)
    as (rows & E & Hlen & Hrows).
  exists rows. split; [exact E|].
  destruct (lookup_lt_is_Some_2 rows i) as [row Hrow]; [lia|].
  rewrite Hrow. f_equal.
  apply Hrows in Hrow.
  rewrite (Screen_render_row_item _ _ _ _ Ht Hit) in Hrow.
  rewrite Hf in Hrow. simpl in Hrow.
  destruct (Z.eqb_spec (top_line s + Z.of_nat i) (line_index s)); [|lia].
  congruence.
Qed.

End ScreenProperties.

(** * Properties of [TinyBlue] *)

Section TinyBlueProperties.

Context {Action : Type}.
Variable call : Action -> M Action unit.
Implicit Types (t : TinyBlue Action) (s : Screen Action) (it : Item Action).

Lemma top_screen_empty t :
  screen_stack t = [] -> TinyBlue_top_screen t = (t, Raise no_screen).
Proof.
  intros E. unfold TinyBlue_top_screen, M_bind, M_get, M_lift.
  rewrite E. reflexivity.
Qed.

Lemma top_screen_last t rest top :
  screen_stack t = rest ++ [top] -> TinyBlue_top_screen t = (t, Ok top).
Proof.
  intros E. unfold TinyBlue_top_screen, M_bind, M_get, M_lift.
  rewrite E. unfold len. rewrite length_app. simpl.
  destruct (Z.eqb_spec (Z.of_nat (length rest + 1)) 0); [lia|].
  rewrite getitem_nonneg by lia.
  replace (Z.to_nat (Z.of_nat (length rest + 1) - 1)) with (length rest) by lia.
  rewrite lookup_app_r by lia. rewrite Nat.sub_diag. reflexivity.
Qed.

Lemma stack_split t :
  1 <= len (screen_stack t) ->
  exists rest top, screen_stack t = rest ++ [top].
Proof.
  destruct (screen_stack t) as [|x l] using rev_ind.
  - unfold len. simpl. lia.
  - eauto.
Qed.

(** *** [render] only talks to the display *)

Lemma lcd_only_ret {A} (a : A) : @lcd_only Action A (M_ret a).
Proof. by intros []. Qed.

Lemma lcd_only_lift {A} (r : result A) : @lcd_only Action A (M_lift r).
Proof. by intros []. Qed.

Lemma lcd_only_get {A} (f : TinyBlue Action -> A) : @lcd_only Action A (M_get f).
Proof. by intros []. Qed.

Lemma lcd_only_do (c : lcd_call) : @lcd_only Action unit (lcd_do c).
Proof. by intros []. Qed.

Lemma lcd_only_bind {A B} (m : M Action A) (k : A -> M Action B) :
  lcd_only m -> (forall a, lcd_only (k a)) -> lcd_only (M_bind m k).
Proof.
  intros Hm Hk t. unfold M_bind.
  specialize (Hm t). destruct (m t) as [t1 [a|e]]; simpl in *.
  - specialize (Hk a t1). rewrite Hk at 1. rewrite Hm. reflexivity.
  - exact Hm.
Qed.

Lemma lcd_only_for {A} (body : A -> M Action unit) (l : list A) :
  (forall x, lcd_only (body x)) -> lcd_only (M_for body l).
Proof.
  intros Hb. induction l as [|x l IH]; simpl.
  - apply lcd_only_ret.
  - apply lcd_only_bind; auto.
Qed.

Create HintDb lcd_only.
Hint Resolve lcd_only_ret lcd_only_lift lcd_only_get lcd_only_do
  lcd_only_for : lcd_only.

Lemma lcd_only_render_line (lines : list (list ascii)) (y : Z) :
  @lcd_only Action unit (TinyBlue_render_line lines y).
Proof.
  unfold TinyBlue_render_line.
  repeat (apply lcd_only_bind; [|intros]); repeat case_match;
    auto with lcd_only.
Qed.

Lemma lcd_only_render : lcd_only (@TinyBlue_render Action).
Proof.
  unfold TinyBlue_render, TinyBlue_top_screen.
  repeat (apply lcd_only_bind; [|intros]); repeat case_match;
    auto using lcd_only_render_line with lcd_only.
Qed.

Lemma lcd_only_render_if_auto : lcd_only (@render_if_auto Action).
Proof.
  unfold render_if_auto.
  apply lcd_only_bind; [auto with lcd_only|].
  intros [|]; auto using lcd_only_render with lcd_only.
Qed.

(** *** Navigation *)

(** The state [back] reaches before it redraws: the top screen reset, then
    popped. *)
Lemma back_nested t rest top :
  screen_stack t = rest ++ [top] ->
  rest <> [] ->
  TinyBlue_back t =
    render_if_auto
      (set_screen_stack rest
         (set_heap (<[top := Screen_reset (heap t top)]> (heap t)) t)).
Proof.
  intros E Hne. unfold TinyBlue_back.
  unfold M_bind at 1. unfold M_get at 1.
  assert ((len (screen_stack t) >? 1) = true) as ->.
  { assert (1 <= length rest)%nat by (destruct rest; [congruence|simpl; lia]).
    rewrite E. unfold len. rewrite length_app. cbn [length].
    destruct (Z.gtb_spec (Z.of_nat (length rest + 1)) 1); [done|lia]. }
  unfold M_bind at 1. rewrite (top_screen_last t rest top E).
  unfold M_bind at 1. unfold M_modify at 1.
  unfold M_bind at 1. unfold stack_pop, M_bind at 1, M_get at 1.
  cbn [screen_stack set_heap]. rewrite E.
  destruct (rest ++ [top]) as [|x l] eqn:E'.
  { by destruct rest. }
  rewrite <- E'. unfold M_modify. rewrite removelast_last.
  reflexivity.
Qed.

Lemma back_shallow t :
  len (screen_stack t) <= 1 -> TinyBlue_back t = (t, Ok tt).
Proof.
  intros H. unfold TinyBlue_back, M_bind, M_get.
  destruct (Z.gtb_spec (len (screen_stack t)) 1); [lia|]. reflexivity.
Qed.

(** C6. With more than one screen on the stack, [back] resets the top
    screen's [line_index] and [top_line] to 0 and pops it, so that the
    stack is one shorter (and then redraws when [auto_render] is set);
    with one screen on the stack, [back] changes nothing at all. *)
Theorem back_pops_or_stays t :
  (1 < len (screen_stack t) ->
   exists rest top,
     screen_stack t = rest ++ [top] /\
     TinyBlue_back t =
       render_if_auto
         (set_screen_stack rest
            (set_heap (<[top := Screen_reset (heap t top)]> (heap t)) t)) /\
     let t' := fst (TinyBlue_back t) in
     screen_stack t' = rest /\
     len (screen_stack t') = len (screen_stack t) - 1 /\
     heap t' = <[top := Screen_reset (heap t top)]> (heap t) /\
     line_index (heap t' top) = 0 /\
     top_line (heap t' top) = 0 /\
     items (heap t' top) = items (heap t top)) /\
  (len (screen_stack t) = 1 -> TinyBlue_back t = (t, Ok tt)).
Proof.
  split.
  - intros Hd. destruct (stack_split t) as (rest & top & E); [lia|].
    assert (rest <> []) as Hne.
    { intros ->. rewrite E in Hd. unfold len in Hd. simpl in Hd. lia. }
    exists rest, top. split; [exact E|].
    rewrite (back_nested t rest top E Hne). split; [reflexivity|].
    cbv zeta. rewrite lcd_only_render_if_auto. cbn [screen_stack heap set_lcd
      set_screen_stack set_heap].
    rewrite fn_lookup_insert. rewrite E. unfold len. rewrite length_app.
    simpl. repeat split. lia.
  - intros H. apply back_shallow. lia.
Qed.

(** C9. [open_screen] with a path that is not in the registry returns
    without exception and leaves the navigator, its stack included, as it
    was. *)
Theorem open_unknown_path_is_noop t (path : string) :
  screens t !! path = None ->
  TinyBlue_open_screen path t = (t, Ok tt).
Proof.
  intros H. unfold TinyBlue_open_screen, M_bind, M_get.
  rewrite H. reflexivity.
Qed.

(** C5, as the code has it. With an empty stack, [scroll], [select] and
    [render] raise the [TypeError] of [top_screen] and change nothing;
    [back] tests the depth of the stack first and returns without
    exception, changing nothing. *)
Theorem empty_stack_primitives t :
  screen_stack t = [] ->
  (forall direction, TinyBlue_scroll direction t = (t, Raise no_screen)) /\
  TinyBlue_select call t = (t, Raise no_screen) /\
  TinyBlue_render t = (t, Raise no_screen) /\
  TinyBlue_back t = (t, Ok tt).
Proof.
  intros E. pose proof (top_screen_empty t E) as Htop.
  repeat split.
  - unfold TinyBlue_scroll, M_bind. by rewrite Htop.
  - unfold TinyBlue_select, M_bind. by rewrite Htop.
  - unfold TinyBlue_render, M_bind. by rewrite Htop.
  - apply back_shallow. rewrite E. unfold len. simpl. lia.
Qed.

(** C3, as the code has it. With [auto_render] set: [select] on a back
    button is [back], which redraws after popping when more than one screen
    is on the stack, and which does nothing, not even a redraw, when at
    most one is; [select] on an item that is not a back button and has a
    callable runs it, and then redraws if the callable returned with
    [auto_render] still set. *)
Theorem select_redraws_unless_root_back t rest top it :
  auto_render t = true ->
  screen_stack t = rest ++ [top] ->
  Screen_get_selected_item (heap t top) = Ok it ->
  (is_back_button it = true ->
     (rest = [] -> TinyBlue_select call t = (t, Ok tt)) /\
     (rest <> [] ->
        TinyBlue_select call t =
          TinyBlue_render
            (set_screen_stack rest
               (set_heap (<[top := Screen_reset (heap t top)]> (heap t)) t)))) /\
  (is_back_button it = false ->
     forall f, on_click it = Some f ->
     (forall t1, call f t = (t1, Ok tt) -> auto_render t1 = true ->
        TinyBlue_select call t = TinyBlue_render t1) /\
     (forall t1 e, call f t = (t1, Raise e) ->
        TinyBlue_select call t = (t1, Raise e))).
Proof.
  intros Hauto E Hit.
  assert (TinyBlue_select call t =
    (if is_back_button it then TinyBlue_back
     else match on_click it with
          | Some f => M_bind (call f) (fun _ => render_if_auto)
          | None => M_ret tt
          end) t) as Hsel.
  { unfold TinyBlue_select. unfold M_bind at 1.
    rewrite (top_screen_last t rest top E).
    unfold M_bind at 1, M_get at 1. unfold M_bind at 1, M_lift at 1.
    rewrite Hit. reflexivity. }
  rewrite Hsel. split.
  - intros ->. split.
    + intros ->. apply back_shallow. rewrite E. unfold len. simpl. lia.
    + intros Hne. rewrite (back_nested t rest top E Hne).
      unfold render_if_auto, M_bind, M_get. cbn [auto_render set_screen_stack
        set_heap]. rewrite Hauto. reflexivity.
  - intros -> f ->. split.
    + intros t1 Hc Ha. unfold M_bind at 1. rewrite Hc.
      unfold render_if_auto, M_bind, M_get. rewrite Ha. reflexivity.
    + intros t1 e Hc. unfold M_bind at 1. rewrite Hc. reflexivity.
Qed.

End TinyBlueProperties.

(** * The properties on the menu of [Demo] *)

(** C1 on the main screen, two display lines: down, down, up, up, up. *)
Lemma scroll_keeps_selection_in_window_witness :
  exists s0 s : Screen Demo.action,
    Screen_init (PyList (PyItem <$> Demo.main_items)) = Ok s0 /\
    top_line s0 = 0 /\ line_index s0 = 0 /\
    Screen_scrolls [1; 1; -1; -1; -1] 2 s0 = Ok s /\
    top_line s <= line_index s < top_line s + 2.
Proof.
  apply (scroll_keeps_selection_in_window Demo.main_items 2 [1; 1; -1; -1; -1]).
  - discriminate.
  - lia.
  - repeat (constructor; [lia|]). constructor.
Defined.

(** The scenario of the specification: five items, two display lines. *)
Example scroll_scenario :
  let its := replicate 5 (Item_init (Demo.str "x") (@None Demo.action) false) in
  let s0 := mkScreen its 0 0 in
  Screen_scrolls [1] 2 s0 = Ok (mkScreen its 0 1) /\
  Screen_scrolls [1; 1] 2 s0 = Ok (mkScreen its 1 2) /\
  Screen_scrolls [1; 1; -1; -1; -1] 2 s0 = Ok (mkScreen its 3 4).
Proof. repeat split. Qed.


(** C2 as stated fails: the empty list is accepted. *)
Lemma Screen_init_empty_not_rejected :
  @Screen_init Demo.action (PyList []) = Ok (mkScreen [] 0 0) /\
  ~ exists e, @Screen_init Demo.action (PyList []) = Raise e.
Proof. split; [reflexivity | intros [e [=]]]. Qed.

(** C8 on the about screen (three items) scrolled to its last item, on a
    2x16 display: the second row is past the last item. *)
Lemma render_rows_shape_witness :
  exists rows,
    Screen_render 2 16 (mkScreen Demo.about_items 2 2) = Ok rows /\
    len rows = 2 /\
    forall (i : nat) row,
      rows !! i = Some row ->
      len row = 16 /\
      len (slice_from1 row) = 16 - 1 /\
      (forall it,
         Demo.about_items !! Z.to_nat (2 + Z.of_nat i) = Some it ->
         slice_from1 row =
           take (Z.to_nat (16 - 1)) (text it) ++
           replicate (Z.to_nat (16 - 1) - length (text it)) " "%char) /\
      (len Demo.about_items <= 2 + Z.of_nat i ->
       row = replicate (Z.to_nat 16) " "%char).
Proof.
  apply (render_rows_shape (mkScreen Demo.about_items 2 2) 2 16); simpl; lia.
Defined.

Example render_about_last :
  Screen_render 2 16 (mkScreen Demo.about_items 2 2) =
    Ok [Demo.str ">Tiny1602Menu   "; Demo.str "                "].
Proof. reflexivity. Qed.

(** C4. On a selected item that is both a back button and callable the
    code breaks the priority of back: [Screen.render] draws the row with
    ["="], not ["<"], and [TinyBlue.render] sends the custom character 1 of
    actionable items, whereas [TinyBlue.select] takes the same item for a
    back button: it pops the screen and never runs the callable (which
    would have opened the root screen above it). *)
Theorem back_and_actionable_item_is_drawn_actionable :
  is_back_button Demo.both_item = true /\
  on_click Demo.both_item = Some (Demo.on_click_open "/") /\
  Screen_get_selected_item Demo.both_screen = Ok Demo.both_item /\
  Screen_render 2 16 Demo.both_screen =
    Ok [Demo.str "=Back           "; Demo.str "                "] /\
  (~ exists rows row,
       Screen_render 2 16 Demo.both_screen = Ok rows /\
       rows !! 0%nat = Some row /\ head row = Some "<"%char) /\
  screen_stack Demo.tm_both = [1%nat; 3%nat] /\
  heap Demo.tm_both 3%nat = Demo.both_screen /\
  take 2 (render_calls Demo.tm_both) =
    [Lcd_move_to 0 0; Lcd_putchar (ascii_of_nat 1)] /\
  TinyBlue_select Demo.call Demo.tm_both = TinyBlue_back Demo.tm_both /\
  screen_stack (fst (TinyBlue_select Demo.call Demo.tm_both)) = [1%nat] /\
  screen_stack (fst (Demo.call (Demo.on_click_open "/") Demo.tm_both)) =
    [1%nat; 3%nat; 1%nat].
Proof.
  split; [reflexivity|]. split; [reflexivity|]. split; [reflexivity|].
  split; [reflexivity|]. split.
  { intros (rows & row & E & Hrow & Hhead).
    vm_compute in E. injection E as <-.
    injection Hrow as <-. discriminate Hhead. }
  split; [reflexivity|]. split; [reflexivity|]. split; [reflexivity|].
  split; [reflexivity|]. split; reflexivity.
Qed.

(** The row of [Demo.both_screen], by the lemma on rows of callable items. *)
Lemma selected_actionable_row_glyph_witness :
  exists rows,
    Screen_render 2 16 Demo.both_screen = Ok rows /\
    rows !! 0%nat =
      Some ("="%char :: Item_get_visible_text Demo.both_item (16 - 1)).
Proof.
  apply (selected_actionable_row_glyph Demo.both_screen 2 16 0 Demo.both_item
           (Demo.on_click_open "/")).
  - simpl. lia.
  - simpl. lia.
  - reflexivity.
  - reflexivity.
  - reflexivity.
Defined.

(** The three navigators of [Demo]: one screen on the stack of [tm] and of
    [tm_back_root], two on that of [tm_about], none on that of [fresh]. *)
Example demo_stacks :
  screen_stack Demo.fresh = [] /\
  screen_stack Demo.tm = [1%nat] /\
  screen_stack Demo.tm_about = [1%nat; 0%nat] /\
  screen_stack Demo.tm_back_root = [0%nat].
Proof. repeat split. Qed.

(** C6 on [tm_about] (two screens) after scrolling its top screen, and on
    [tm] (one screen). *)
Lemma back_pops_or_stays_witness :
  let t := fst (TinyBlue_scroll 1 Demo.tm_about) in
  (line_index (heap t 0%nat) = 1 /\
   screen_stack (fst (TinyBlue_back t)) = [1%nat] /\
   line_index (heap (fst (TinyBlue_back t)) 0%nat) = 0 /\
   top_line (heap (fst (TinyBlue_back t)) 0%nat) = 0) /\
  TinyBlue_back Demo.tm = (Demo.tm, Ok tt).
Proof.
  cbv zeta. split.
  - destruct (back_pops_or_stays (fst (TinyBlue_scroll 1 Demo.tm_about)))
      as [Hnested _].
    destruct Hnested as (rest & top & E & _ & Hs & _ & _ & Hl & Ht & _).
    + vm_compute. reflexivity.
    + change (screen_stack (fst (TinyBlue_scroll 1 Demo.tm_about)))
        with ([1%nat] ++ [0%nat]) in E.
      apply app_inj_tail in E as [<- <-].
      split; [reflexivity|]. split; [exact Hs|]. split; [exact Hl | exact Ht].
  - apply (back_pops_or_stays Demo.tm). reflexivity.
Defined.

(** C9 on [tm], whose registry holds ["/about"] and ["/"]. *)
Lemma open_unknown_path_is_noop_witness :
  screens Demo.tm !! "/unregistered" = None /\
  TinyBlue_open_screen "/unregistered" Demo.tm = (Demo.tm, Ok tt).
Proof.
  split; [reflexivity|].
  apply (open_unknown_path_is_noop Demo.tm "/unregistered"). reflexivity.
Defined.

(** C5 as stated fails: on a navigator without any screen [back] returns
    normally. *)
Lemma back_on_empty_stack_does_not_raise :
  screen_stack Demo.fresh = [] /\
  TinyBlue_back Demo.fresh = (Demo.fresh, Ok tt) /\
  ~ exists e, snd (TinyBlue_back Demo.fresh) = Raise e.
Proof.
  split; [reflexivity|]. split; [reflexivity|]. intros [e [=]].
Qed.

(** C5, as the code has it, on that navigator. *)
Lemma empty_stack_primitives_witness :
  (forall direction,
     TinyBlue_scroll direction Demo.fresh = (Demo.fresh, Raise no_screen)) /\
  TinyBlue_select Demo.call Demo.fresh = (Demo.fresh, Raise no_screen) /\
  TinyBlue_render Demo.fresh = (Demo.fresh, Raise no_screen) /\
  TinyBlue_back Demo.fresh = (Demo.fresh, Ok tt).
Proof.
  apply (empty_stack_primitives Demo.call Demo.fresh). reflexivity.
Defined.

(** C3 as stated fails: [auto_render] is set, the root screen's selected item
    is a back button, and [select] returns without any call to the display,
    while a render of that state makes six. *)
Lemma select_back_on_root_does_not_render :
  auto_render Demo.tm_back_root = true /\
  is_back_button <$> head Demo.about_items = Some true /\
  screen_stack Demo.tm_back_root = [0%nat] /\
  TinyBlue_select Demo.call Demo.tm_back_root = (Demo.tm_back_root, Ok tt) /\
  length (render_calls Demo.tm_back_root) = 6%nat /\
  ~ ends_with_render (TinyBlue_select Demo.call) Demo.tm_back_root.
Proof.
  repeat split.
  intros [before H].
  apply (f_equal length) in H.
  change (fst (TinyBlue_select Demo.call Demo.tm_back_root))
    with Demo.tm_back_root in H.
  rewrite !length_app in H.
  change (length (render_calls Demo.tm_back_root)) with 6%nat in H.
  lia.
Qed.

(** C3, as the code has it: a back button on the root screen, a back button
    on a nested screen, and the item [About] of the main screen. *)
Lemma select_redraws_unless_root_back_witness :
  TinyBlue_select Demo.call Demo.tm_back_root = (Demo.tm_back_root, Ok tt) /\
  TinyBlue_select Demo.call Demo.tm_about =
    TinyBlue_render
      (set_screen_stack [1%nat]
         (set_heap (<[0%nat := Screen_reset (heap Demo.tm_about 0%nat)]>
                      (heap Demo.tm_about)) Demo.tm_about)) /\
  (let t := fst (TinyBlue_scroll (-1) Demo.tm) in
   TinyBlue_select Demo.call t =
     TinyBlue_render (fst (Demo.call (Demo.on_click_open "/about") t))).
Proof.
  split; [|split].
  - assert (auto_render Demo.tm_back_root = true) as Ha by reflexivity.
    assert (screen_stack Demo.tm_back_root = [] ++ [0%nat]) as Hs
      by reflexivity.
    assert (Screen_get_selected_item (heap Demo.tm_back_root 0%nat) =
            Ok (Item_init (Demo.str "Back") None true)) as Hi by reflexivity.
    destruct (select_redraws_unless_root_back Demo.call _ _ _ _ Ha Hs Hi)
      as [Hback _].
    destruct (Hback eq_refl) as [Hroot _]. exact (Hroot eq_refl).
  - assert (auto_render Demo.tm_about = true) as Ha by reflexivity.
    assert (screen_stack Demo.tm_about = [1%nat] ++ [0%nat]) as Hs
      by reflexivity.
    assert (Screen_get_selected_item (heap Demo.tm_about 0%nat) =
            Ok (Item_init (Demo.str "Back") None true)) as Hi by reflexivity.
    destruct (select_redraws_unless_root_back Demo.call _ _ _ _ Ha Hs Hi)
      as [Hback _].
    destruct (Hback eq_refl) as [_ Hnested]. apply Hnested. discriminate.
  - cbv zeta.
    set (t := fst (TinyBlue_scroll (-1) Demo.tm)).
    assert (auto_render t = true) as Ha by reflexivity.
    assert (screen_stack t = [] ++ [1%nat]) as Hs by reflexivity.
    assert (Screen_get_selected_item (heap t 1%nat) =
            Ok (Item_init (Demo.str "About")
                  (Some (Demo.on_click_open "/about")) false)) as Hi
      by reflexivity.
    destruct (select_redraws_unless_root_back Demo.call _ _ _ _ Ha Hs Hi)
      as [_ Hact].
    destruct (Hact eq_refl (Demo.on_click_open "/about") eq_refl) as [Hok _].
    apply Hok; vm_compute; reflexivity.
Defined.

(** * Further properties of [Item] and [Screen] *)

Section ScreenMore.

Context {Action : Type}.
Implicit Types (s : Screen Action) (it : Item Action).

(** On a screen that has items and valid indices, [scroll] never raises,
    whatever the direction and the number of lines; it keeps the items and
    the validity of the indices, and [get_selected_item] then returns the
    item at the new [line_index]. *)
Theorem scroll_keeps_selection_on_an_item s (direction num_lines : Z) :
  items s <> [] ->
  Screen_valid s ->
  exists s' it,
    Screen_scroll direction num_lines s = Ok s' /\
    items s' = items s /\
    Screen_valid s' /\
    0 <= line_index s' < len (items s) /\
    Screen_get_selected_item s' = Ok it /\
    items s !! Z.to_nat (line_index s') = Some it.
Proof.
  intros Hne Hv.
  destruct (Screen_scroll_nonempty direction num_lines s Hne)
    as (s' & E & Hi & Hl & _).
  pose proof (len_pos _ Hne) as Hpos.
  pose proof (Z.mod_pos_bound (line_index s + len (items s) + direction)
                (len (items s)) Hpos) as Hb.
  rewrite <- Hl in Hb.
  destruct (lookup_lt_is_Some_2 (items s) (Z.to_nat (line_index s')))
    as [it Hit]; [unfold len in Hb; lia|].
  exists s', it. split; [exact E|]. split; [exact Hi|].
  split; [eapply Screen_scroll_valid; eauto|]. split; [exact Hb|].
  split; [|exact Hit].
  unfold Screen_get_selected_item. rewrite Hi.
  rewrite getitem_nonneg by lia. by rewrite Hit.
Qed.

Lemma Screen_scroll_window_fits (d n : Z) s s' :
  0 <= top_line s <= Z.max 0 (len (items s) - n) ->
  Screen_scroll d n s = Ok s' ->
  0 <= top_line s' <= Z.max 0 (len (items s') - n).
Proof.
  intros Ht. unfold Screen_scroll, mod_.
  destruct (Z.eqb_spec (len (items s)) 0) as [E|E]; [discriminate|].
  cbn [Py.bind].
  pose proof (len_nonneg (items s)).
  pose proof (Z.mod_pos_bound (line_index s + len (items s) + d)
                (len (items s)) ltac:(lia)) as Hm.
  set (li := (line_index s + len (items s) + d) mod len (items s)) in *.
  destruct (Z.geb_spec li (top_line s + n)).
  - intros [= <-]. cbn [items top_line]. lia.
  - destruct (Z.ltb_spec li (top_line s)).
    + intros [= <-]. cbn [items top_line]. lia.
    + intros [= <-]. cbn [items top_line]. lia.
Qed.

(** From the constructor's state, no sequence of [scroll] calls moves the
    window past the end of the list: [top_line] stays between 0 and
    [len(items) - num_lines] (or at 0 when the list is shorter than the
    display), so each of the first [min(num_lines, len(items))] rows of the
    window shows an item. *)
Theorem scroll_window_stays_within_list
    (its : list (Item Action)) (num_lines : Z) (directions : list Z) :
  its <> [] ->
  exists s,
    Screen_scrolls directions num_lines (mkScreen its 0 0) = Ok s /\
    items s = its /\
    0 <= top_line s <= Z.max 0 (len its - num_lines) /\
    forall i : nat,
      Z.of_nat i < Z.min num_lines (len its) ->
      is_Some (its !! Z.to_nat (top_line s + Z.of_nat i)).
Proof.
  intros Hne.
  assert (forall ds s0,
    items s0 <> [] ->
    0 <= top_line s0 <= Z.max 0 (len (items s0) - num_lines) ->
    exists s, Screen_scrolls ds num_lines s0 = Ok s /\
              items s = items s0 /\
              0 <= top_line s <= Z.max 0 (len (items s0) - num_lines)) as H.
  { induction ds as [|d ds IH]; intros s0 Hne0 Ht0.
    - exists s0. auto.
    - destruct (Screen_scroll_nonempty d num_lines s0 Hne0)
        as (s1 & E & Hi & _).
      pose proof (Screen_scroll_window_fits _ _ _ _ Ht0 E) as Ht1.
      destruct (IH s1) as (s2 & E2 & Hi2 & Ht2); [congruence | exact Ht1 |].
      exists s2. cbn [Screen_scrolls]. rewrite E. cbn [Py.bind].
      split; [exact E2|]. split; [congruence|]. rewrite <- Hi. exact Ht2. }
  destruct (H directions (mkScreen its 0 0)) as (s & E & Hi & Ht).
  - exact Hne.
  - cbn [items top_line]. lia.
  - cbn [items] in *. exists s. split; [exact E|]. split; [exact Hi|].
    split; [exact Ht|].
    intros i Hlt. apply lookup_lt_is_Some_2. unfold len in *. lia.
Qed.

(** On a screen with items and the selection on one of them, a [scroll] in
    the opposite direction undoes the move of the selection, whatever the
    numbers of lines. *)
Theorem scroll_back_restores_selection s (direction n1 n2 : Z) :
  items s <> [] ->
  0 <= line_index s < len (items s) ->
  exists s1 s2,
    Screen_scroll direction n1 s = Ok s1 /\
    Screen_scroll (- direction) n2 s1 = Ok s2 /\
    line_index s2 = line_index s.
Proof.
  intros Hne Hr.
  destruct (Screen_scroll_nonempty direction n1 s Hne)
    as (s1 & E1 & Hi1 & Hl1 & _).
  destruct (Screen_scroll_nonempty (- direction) n2 s1)
    as (s2 & E2 & _ & Hl2 & _); [congruence|].
  exists s1, s2. split; [exact E1|]. split; [exact E2|].
  rewrite Hl2, Hl1, Hi1.
  rewrite <- Z.add_assoc. rewrite Zplus_mod_idemp_l.
  replace (line_index s + len (items s) + direction +
           (len (items s) + - direction))
    with (line_index s + 2 * len (items s)) by lia.
  rewrite Z_mod_plus_full. apply Z.mod_small. exact Hr.
Qed.

(** [render] draws a cursor on the row of the selected item only: a row
    showing an item starts with a space exactly when the item is not the
    selected one; on the selected row an item without callable is drawn with
    ["<"] if it is a back button and with [">"] otherwise. *)
Theorem render_cursor_marks_selected_row s (num_lines num_columns : Z)
    rows (i : nat) row it :
  0 <= top_line s ->
  Screen_render num_lines num_columns s = Ok rows ->
  rows !! i = Some row ->
  items s !! Z.to_nat (top_line s + Z.of_nat i) = Some it ->
  (head row = Some " "%char <-> top_line s + Z.of_nat i <> line_index s) /\
  (top_line s + Z.of_nat i = line_index s -> on_click it = None ->
   head row = Some (if is_back_button it then "<"%char else ">"%char)).
Proof.
  intros Ht E Hrow Hit.
  destruct (Screen_render_rows s num_lines num_columns Ht)
    as (rows' & E' & _ & Hrows).
  rewrite E in E'. injection E' as <-.
  apply Hrows in Hrow.
  rewrite (Screen_render_row_item _ _ _ _ Ht Hit) in Hrow.
  injection Hrow as <-. cbn [head].
  destruct (Z.eqb_spec (top_line s + Z.of_nat i) (line_index s)) as [Es|Es].
  - split.
    + split; [|done].
      destruct (on_click it), (is_back_button it); simpl; intros [=].
    + intros _ ->. simpl. by destruct (is_back_button it).
  - split; [done | intros; done].
Qed.

Lemma render_rows_shape_any s (num_lines num_columns : Z) :
  0 <= top_line s ->
  1 <= num_columns ->
  exists rows,
    Screen_render num_lines num_columns s = Ok rows /\
    length rows = Z.to_nat num_lines /\
    forall (i : nat) row, rows !! i = Some row -> len row = num_columns.
Proof.
  intros Ht Hc.
  destruct (Screen_render_rows s num_lines num_columns Ht)
    as (rows & E & Hlen & Hrows).
  exists rows. split; [exact E|]. split; [exact Hlen|].
  intros i row Hrow. apply Hrows in Hrow.
  destruct (items s !! Z.to_nat (top_line s + Z.of_nat i)) as [it|] eqn:Hit.
  - rewrite (Screen_render_row_item _ _ _ _ Ht Hit) in Hrow.
    injection Hrow as <-.
    destruct (Item_get_visible_text_spec it (num_columns - 1)) as [_ Hl];
      [lia|].
    unfold len in *. cbn [length]. lia.
  - apply lookup_ge_None in Hit.
    rewrite Screen_render_row_blank in Hrow by (unfold len; lia).
    injection Hrow as <-. unfold len. rewrite length_replicate. lia.
Qed.

(** With a negative width (a display of no column) [get_visible_text] does
    not pad: it returns the text without its last [- num_chars] characters,
    and the empty text when there are not that many. *)
Theorem get_visible_text_negative_width it (num_chars : Z) :
  num_chars < 0 ->
  Item_get_visible_text it num_chars =
    take (length (text it) - Z.to_nat (- num_chars)) (text it).
Proof.
  intros Hn. unfold Item_get_visible_text, slice_to, repeat_char.
  destruct (Z.ltb_spec num_chars 0); [|lia].
  unfold len. rewrite length_take.
  replace (Z.to_nat (num_chars - _)) with 0%nat by lia.
  cbn [replicate]. rewrite app_nil_r. f_equal. lia.
Qed.

End ScreenMore.

(** * Further properties of [TinyBlue] *)

Section TinyBlueMore.

Context {Action : Type}.
Variable call : Action -> M Action unit.
Implicit Types (t : TinyBlue Action) (s : Screen Action) (it : Item Action).

(** *** What reaches the display *)

Lemma set_lcd_id t : set_lcd (lcd t ++ []) t = t.
Proof. destruct t. unfold set_lcd. simpl. by rewrite app_nil_r. Qed.

Lemma lcd_appends_ret {A} (a : A) : @lcd_appends Action A (M_ret a).
Proof. intros t. exists []. simpl. by rewrite set_lcd_id. Qed.

Lemma lcd_appends_lift {A} (r : result A) : @lcd_appends Action A (M_lift r).
Proof. intros t. exists []. simpl. by rewrite set_lcd_id. Qed.

Lemma lcd_appends_get {A} (f : TinyBlue Action -> A) :
  @lcd_appends Action A (M_get f).
Proof. intros t. exists []. simpl. by rewrite set_lcd_id. Qed.

Lemma lcd_appends_do (c : lcd_call) : @lcd_appends Action unit (lcd_do c).
Proof. intros t. by exists [c]. Qed.

Lemma lcd_appends_bind {A B} (m : M Action A) (k : A -> M Action B) :
  lcd_appends m -> (forall a, lcd_appends (k a)) -> lcd_appends (M_bind m k).
Proof.
  intros Hm Hk t. unfold M_bind.
  destruct (Hm t) as [c1 E1]. destruct (m t) as [t1 [a|e]]; simpl in *.
  - destruct (Hk a t1) as [c2 E2]. exists (c1 ++ c2).
    rewrite E2, E1. unfold set_lcd. simpl. by rewrite app_assoc.
  - by exists c1.
Qed.

Lemma lcd_appends_for {A} (body : A -> M Action unit) (l : list A) :
  (forall x, lcd_appends (body x)) -> lcd_appends (M_for body l).
Proof.
  intros Hb. induction l as [|x l IH]; simpl.
  - apply lcd_appends_ret.
  - apply lcd_appends_bind; auto.
Qed.

Create HintDb lcd_appends.
Hint Resolve lcd_appends_ret lcd_appends_lift lcd_appends_get lcd_appends_do
  lcd_appends_for : lcd_appends.

Lemma lcd_appends_render_line (lines : list (list ascii)) (y : Z) :
  @lcd_appends Action unit (TinyBlue_render_line lines y).
Proof.
  unfold TinyBlue_render_line.
  repeat (apply lcd_appends_bind; [|intros]); repeat case_match;
    auto with lcd_appends.
Qed.

Lemma lcd_appends_render : lcd_appends (@TinyBlue_render Action).
Proof.
  unfold TinyBlue_render, TinyBlue_top_screen.
  repeat (apply lcd_appends_bind; [|intros]); repeat case_match;
    auto using lcd_appends_render_line with lcd_appends.
Qed.

Lemma lcd_appends_render_if_auto : lcd_appends (@render_if_auto Action).
Proof.
  unfold render_if_auto.
  apply lcd_appends_bind; [auto with lcd_appends|].
  intros [|]; auto using lcd_appends_render with lcd_appends.
Qed.

(** [render], whether it returns or raises, changes nothing of the navigator
    or of its screens: it only adds calls to those the display received. *)
Theorem render_only_adds_display_calls t :
  let t' := fst (TinyBlue_render t) in
  (exists calls, lcd t' = lcd t ++ calls) /\
  screen_stack t' = screen_stack t /\
  screens t' = screens t /\
  heap t' = heap t /\
  num_lines t' = num_lines t /\
  num_columns t' = num_columns t /\
  screen_root_path t' = screen_root_path t /\
  auto_render t' = auto_render t.
Proof.
  cbv zeta. destruct (lcd_appends_render t) as [calls E]. rewrite E.
  split; [by exists calls|]. repeat split.
Qed.

Lemma render_line_calls (lines : list (list ascii)) (y : Z) c rest t :
  getitem lines y = Ok (c :: rest) ->
  TinyBlue_render_line lines y t =
    (set_lcd (lcd t ++ [Lcd_move_to 0 y; Lcd_putchar (cursor_char c);
                        Lcd_putstr rest]) t, Ok tt).
Proof.
  intros H. unfold TinyBlue_render_line, M_bind, M_lift, cursor_char.
  rewrite H. unfold lcd_do, M_modify. cbn beta iota.
  change (getitem (c :: rest) 0) with (Ok c). cbn beta iota.
  destruct (Ascii.eqb c ">"); [|destruct (Ascii.eqb c "=");
    [|destruct (Ascii.eqb c "<")]];
    cbn beta iota; unfold set_lcd, slice_from1; cbn [lcd num_lines num_columns screens
      screen_stack screen_root_path auto_render heap drop];
    rewrite <- !app_assoc; reflexivity.
Qed.

Lemma render_lines_calls (done todo : list (list ascii)) t :
  Forall (fun line => line <> []) todo ->
  M_for (TinyBlue_render_line (done ++ todo))
        (seqZ (len done) (len todo)) t =
    (set_lcd (lcd t ++ rows_calls (len done) todo) t, Ok tt).
Proof.
  intros Hne. revert done t.
  induction Hne as [|line todo Hline _ IH]; intros done t.
  - cbn. by rewrite set_lcd_id.
  - destruct line as [|c rest]; [done|].
    rewrite seqZ_cons by (unfold len; cbn [length]; lia).
    cbn [M_for]. unfold M_bind at 1.
    rewrite (render_line_calls _ _ c rest).
    2:{ rewrite getitem_nonneg by apply len_nonneg.
        unfold len. rewrite Nat2Z.id.
        rewrite lookup_app_r by lia. by rewrite Nat.sub_diag. }
    replace (Z.succ (len done)) with (len (done ++ [c :: rest]))
      by (unfold len; rewrite length_app; cbn [length]; lia).
    replace (Z.pred (len ((c :: rest) :: todo))) with (len todo)
      by (unfold len; cbn [length]; lia).
    rewrite (cons_middle (c :: rest) done todo), app_assoc.
    rewrite IH. f_equal.
    unfold set_lcd. cbn [lcd num_lines num_columns screens screen_stack
      screen_root_path auto_render heap rows_calls head default slice_from1
      drop].
    rewrite <- !app_assoc.
    replace (len (done ++ [c :: rest])) with (len done + 1)
      by (unfold len; rewrite length_app; cbn [length]; lia).
    reflexivity.
Qed.

(** With a screen on the stack whose window does not start before the first
    item, and at least one column, [render] returns without exception and
    the display receives, after what it had received, three calls for each
    of the [num_lines] rows of the top screen, from row 0 on: the position
    [(0, y)], the cursor character, and a string of exactly
    [num_columns - 1] characters. *)
Theorem render_draws_every_row t rest top :
  screen_stack t = rest ++ [top] ->
  0 <= top_line (heap t top) ->
  1 <= num_columns t ->
  exists rows,
    Screen_render (num_lines t) (num_columns t) (heap t top) = Ok rows /\
    TinyBlue_render t = (set_lcd (lcd t ++ rows_calls 0 rows) t, Ok tt) /\
    length (rows_calls 0 rows) = (3 * Z.to_nat (num_lines t))%nat /\
    forall text, Lcd_putstr text ∈ rows_calls 0 rows ->
                 len text = num_columns t - 1.
Proof.
  intros Es Ht Hc.
  destruct (render_rows_shape_any (heap t top) (num_lines t) (num_columns t))
    as (rows & E & Hlen & Hshape); [exact Ht | exact Hc |].
  exists rows. split; [exact E|].
  assert (Forall (fun line : list ascii => len line = num_columns t) rows) as Hall.
  { apply Forall_lookup. intros i row Hrow. by apply (Hshape i). }
  split; [|split].
  - unfold TinyBlue_render. unfold M_bind at 1.
    rewrite (top_screen_last t rest top Es).
    unfold M_bind at 1, M_get at 1. unfold M_bind at 1, M_get at 1.
    unfold M_bind at 1, M_get at 1. unfold M_bind at 1, M_lift at 1.
    rewrite E. unfold range.
    apply (render_lines_calls [] rows t).
    eapply Forall_impl; [exact Hall|].
    intros line Hl ->. unfold len in Hl. simpl in Hl. lia.
  - clear -Hlen. generalize 0 as y. revert Hlen. generalize (num_lines t).
    induction rows as [|row rows IH]; intros n Hlen y.
    + simpl in *. lia.
    + cbn [rows_calls length app]. rewrite (IH (n - 1)%Z) by (simpl in Hlen; lia).
      simpl in Hlen. lia.
  - clear -Hall Hc. generalize 0 as y.
    induction Hall as [|row rows Hrow _ IH]; intros y text Hin.
    + by apply elem_of_nil in Hin.
    + cbn [rows_calls app] in Hin.
      apply elem_of_cons in Hin as [[=]|Hin].
      apply elem_of_cons in Hin as [[=]|Hin].
      apply elem_of_cons in Hin as [[= ->]|Hin]; [|by eapply IH].
      unfold slice_from1, len in *. rewrite length_drop. lia.
Qed.

(** On a display of no column, drawing a row past the last item raises:
    with an empty screen on top, [render] positions the display on row 0 and
    then raises [IndexError], the row being the empty string. *)
Theorem render_without_columns_raises t rest top :
  screen_stack t = rest ++ [top] ->
  items (heap t top) = [] ->
  0 <= top_line (heap t top) ->
  1 <= num_lines t ->
  num_columns t <= 0 ->
  TinyBlue_render t =
    (set_lcd (lcd t ++ [Lcd_move_to 0 0]) t, Raise IndexError).
Proof.
  intros Es Hit Ht Hn Hc.
  destruct (Screen_render_rows (heap t top) (num_lines t) (num_columns t) Ht)
    as (rows & E & Hlen & Hrows).
  destruct rows as [|row rows]; [simpl in Hlen; lia|].
  assert (row = []) as ->.
  { specialize (Hrows 0%nat row eq_refl).
    rewrite Screen_render_row_blank in Hrows
      by (rewrite Hit; unfold len; simpl; lia).
    injection Hrows as <-. by replace (Z.to_nat (num_columns t)) with 0%nat by lia. }
  unfold TinyBlue_render. unfold M_bind at 1.
  rewrite (top_screen_last t rest top Es).
  unfold M_bind at 1, M_get at 1. unfold M_bind at 1, M_get at 1.
  unfold M_bind at 1, M_get at 1. unfold M_bind at 1, M_lift at 1.
  rewrite E. unfold range.
  rewrite seqZ_cons by (unfold len; cbn [length]; lia).
  cbn [M_for]. unfold M_bind at 1.
  unfold TinyBlue_render_line, M_bind, M_lift, lcd_do, M_modify.
  change (getitem ([] :: rows) 0) with (@Ok (list ascii) []).
  reflexivity.
Qed.

(** *** Navigation *)

(** A screen added under a path can be opened by that path: after
    [add_screen(path, screen)], [open_screen(path)] puts [screen] on top of
    the stack, above the stack as it was, or above [screen] alone when the
    path is the root path. *)
Theorem add_screen_then_open_screen t (path : string) (screen : nat) :
  let t1 := fst (TinyBlue_add_screen path screen t) in
  let t2 := fst (TinyBlue_open_screen path t1) in
  screens t1 !! path = Some screen /\
  (forall other, other <> path -> screens t1 !! other = screens t !! other) /\
  screen_stack t1 =
    (if String.eqb path (screen_root_path t) then [screen]
     else screen_stack t) /\
  screen_stack t2 = screen_stack t1 ++ [screen] /\
  fst (TinyBlue_top_screen t2) = t2 /\
  snd (TinyBlue_top_screen t2) = Ok screen.
Proof.
  cbv zeta.
  assert (fst (TinyBlue_add_screen path screen t) =
          set_screen_stack
            (if String.eqb path (screen_root_path t) then [screen]
             else screen_stack t)
            (set_screens (<[path := screen]> (screens t)) t)) as E1.
  { unfold TinyBlue_add_screen, M_bind, M_modify, M_get. cbn beta iota.
    cbn [screen_root_path set_screens].
    destruct (String.eqb path (screen_root_path t)); [reflexivity|].
    destruct t; reflexivity. }
  rewrite E1. set (t1 := set_screen_stack _ _).
  assert (screens t1 !! path = Some screen) as Hreg.
  { unfold t1. cbn [screens set_screen_stack set_screens].
    apply lookup_insert_eq. }
  assert (exists calls,
    fst (TinyBlue_open_screen path t1) =
      set_lcd (lcd t1 ++ calls) (set_screen_stack (screen_stack t1 ++ [screen]) t1))
    as [calls E2].
  { unfold TinyBlue_open_screen. unfold M_bind at 1, M_get at 1.
    rewrite Hreg. unfold M_bind, M_modify.
    destruct (lcd_appends_render_if_auto
                (set_screen_stack (screen_stack t1 ++ [screen]) t1))
      as [calls E].
    exists calls.
    destruct (render_if_auto _) as [t' [[]|e]]; exact E. }
  rewrite E2.
  split; [exact Hreg|]. split.
  { intros other Hne. unfold t1. cbn [screens set_screen_stack set_screens].
    by apply lookup_insert_ne. }
  split; [reflexivity|]. split; [reflexivity|].
  rewrite (top_screen_last _ (screen_stack t1) screen); [done|reflexivity].
Qed.

(** With a screen on the stack, [open_screen] on a registered path followed
    by [back] gives the stack back as it was, and leaves the opened screen
    reset, with its items. *)
Theorem open_screen_then_back t (path : string) (screen : nat) :
  screen_stack t <> [] ->
  screens t !! path = Some screen ->
  let t2 := fst (TinyBlue_back (fst (TinyBlue_open_screen path t))) in
  screen_stack t2 = screen_stack t /\
  screens t2 = screens t /\
  heap t2 = <[screen := Screen_reset (heap t screen)]> (heap t) /\
  line_index (heap t2 screen) = 0 /\
  top_line (heap t2 screen) = 0 /\
  items (heap t2 screen) = items (heap t screen).
Proof.
  intros Hne Hreg. cbv zeta.
  assert (exists calls,
    fst (TinyBlue_open_screen path t) =
      set_lcd (lcd t ++ calls) (set_screen_stack (screen_stack t ++ [screen]) t))
    as [calls E1].
  { unfold TinyBlue_open_screen. unfold M_bind at 1, M_get at 1.
    rewrite Hreg. unfold M_bind, M_modify.
    destruct (lcd_appends_render_if_auto
                (set_screen_stack (screen_stack t ++ [screen]) t))
      as [calls E].
    exists calls.
    destruct (render_if_auto _) as [t' [[]|e]]; exact E. }
  rewrite E1. set (t1 := set_lcd _ _).
  rewrite (back_nested t1 (screen_stack t) screen eq_refl Hne).
  destruct (lcd_appends_render_if_auto
              (set_screen_stack (screen_stack t)
                 (set_heap (<[screen := Screen_reset (heap t1 screen)]> (heap t1))
                    t1))) as [calls2 E2].
  rewrite E2. cbn [screen_stack screens heap set_lcd set_screen_stack set_heap t1].
  rewrite fn_lookup_insert. repeat split.
Qed.

(** With a top screen that has items, the navigator's [scroll] scrolls the
    object the top reference designates, by the navigator's [num_lines], and
    touches no other screen, nor the stack or the registry. *)
Theorem scroll_touches_only_top_screen t rest top (direction : Z) :
  screen_stack t = rest ++ [top] ->
  items (heap t top) <> [] ->
  let t' := fst (TinyBlue_scroll direction t) in
  exists scr',
    Screen_scroll direction (num_lines t) (heap t top) = Ok scr' /\
    heap t' top = scr' /\
    (forall other, other <> top -> heap t' other = heap t other) /\
    screen_stack t' = screen_stack t /\
    screens t' = screens t /\
    exists calls, lcd t' = lcd t ++ calls.
Proof.
  intros Es Hne. cbv zeta.
  destruct (Screen_scroll_nonempty direction (num_lines t) (heap t top) Hne)
    as (scr' & E & _).
  exists scr'. split; [exact E|].
  destruct (lcd_appends_render_if_auto
              (set_heap (<[top := scr']> (heap t)) t)) as [calls Ec].
  assert (fst (TinyBlue_scroll direction t) =
          set_lcd (lcd t ++ calls) (set_heap (<[top := scr']> (heap t)) t))
    as ->.
  { unfold TinyBlue_scroll. unfold M_bind at 1.
    rewrite (top_screen_last t rest top Es).
    unfold M_bind at 1, M_get at 1. unfold M_bind at 1, M_get at 1.
    unfold M_bind at 1, M_lift at 1. rewrite E.
    unfold M_bind, M_modify. exact Ec. }
  cbn [heap screen_stack screens lcd set_lcd set_heap].
  split; [apply fn_lookup_insert|].
  split; [intros other Ho; by apply fn_lookup_insert_ne|].
  split; [reflexivity|]. split; [reflexivity|]. by exists calls.
Qed.

(** With an empty screen on top of the stack, [scroll] raises
    [ZeroDivisionError] and [select] raises [IndexError]; neither changes
    anything nor draws. *)
Theorem empty_top_screen_raises t rest top :
  screen_stack t = rest ++ [top] ->
  items (heap t top) = [] ->
  (forall direction,
     TinyBlue_scroll direction t = (t, Raise ZeroDivisionError)) /\
  TinyBlue_select call t = (t, Raise IndexError).
Proof.
  intros Es Hit. split.
  - intros direction. unfold TinyBlue_scroll. unfold M_bind at 1.
    rewrite (top_screen_last t rest top Es).
    unfold M_bind at 1, M_get at 1. unfold M_bind at 1, M_get at 1.
    unfold M_bind at 1, M_lift at 1.
    unfold Screen_scroll, mod_. rewrite Hit. reflexivity.
  - unfold TinyBlue_select. unfold M_bind at 1.
    rewrite (top_screen_last t rest top Es).
    unfold M_bind at 1, M_get at 1. unfold M_bind at 1, M_lift at 1.
    unfold Screen_get_selected_item. rewrite Hit, getitem_nil. reflexivity.
Qed.

(** [select] on an item that is neither a back button nor actionable does
    nothing: no change of state, no call to the display, even with
    [auto_render] set. *)
Theorem select_plain_item_is_noop t rest top it :
  screen_stack t = rest ++ [top] ->
  Screen_get_selected_item (heap t top) = Ok it ->
  is_back_button it = false ->
  on_click it = None ->
  TinyBlue_select call t = (t, Ok tt).
Proof.
  intros Es Hit Hb Hc. unfold TinyBlue_select. unfold M_bind at 1.
  rewrite (top_screen_last t rest top Es).
  unfold M_bind at 1, M_get at 1. unfold M_bind at 1, M_lift at 1.
  rewrite Hit, Hb, Hc. reflexivity.
Qed.

(** A navigator to which only screens under other paths than ["/"] were
    added has no screen to show: its stack is empty and [render] raises the
    [TypeError] of [top_screen], without a call to the display. *)
Theorem without_root_screen_nothing_to_show
    (l : list (string * nat)) (lcd0 : list lcd_call) (lines columns : Z)
    (heap0 : nat -> Screen Action) :
  Forall (fun p => fst p <> "/"%string) l ->
  let t := add_screens l (TinyBlue_init lcd0 lines columns heap0) in
  screen_stack t = [] /\
  (forall path screen, (path, screen) ∈ l -> is_Some (screens t !! path)) /\
  TinyBlue_render t = (t, Raise no_screen).
Proof.
  intros Hl. cbv zeta.
  assert (forall t0 : TinyBlue Action,
    screen_root_path t0 = "/"%string -> screen_stack t0 = [] ->
    screen_stack (add_screens l t0) = [] /\
    (forall path, is_Some (screens t0 !! path) ->
                  is_Some (screens (add_screens l t0) !! path)) /\
    (forall path screen, (path, screen) ∈ l ->
                         is_Some (screens (add_screens l t0) !! path))) as H.
  { induction Hl as [|[path screen] l Hp _ IH]; intros t0 Hroot Hs.
    - split; [exact Hs|]. split; [auto|]. intros ? ? []%elem_of_nil.
    - cbn [add_screens fst] in *.
      assert (fst (TinyBlue_add_screen path screen t0) =
              set_screens (<[path := screen]> (screens t0)) t0) as ->.
      { unfold TinyBlue_add_screen, M_bind, M_modify, M_get. cbn beta iota.
        cbn [screen_root_path set_screens]. rewrite Hroot.
        apply String.eqb_neq in Hp. rewrite Hp. reflexivity. }
      destruct (IH (set_screens (<[path := screen]> (screens t0)) t0))
        as (E & Hkeep & Hin); [exact Hroot | exact Hs |].
      split; [exact E|]. split.
      + intros q Hq. apply Hkeep. cbn [screens set_screens].
        rewrite lookup_insert. case_decide; [by eexists | exact Hq].
      + intros q scr [[= -> ->]|Hq]%elem_of_cons; [|by eapply Hin].
        apply Hkeep. cbn [screens set_screens].
        rewrite lookup_insert_eq. by eexists. }
  destruct (H (TinyBlue_init lcd0 lines columns heap0)) as (E & _ & Hin);
    [reflexivity | reflexivity |].
  split; [exact E|]. split; [exact Hin|].
  unfold TinyBlue_render, M_bind. by rewrite (top_screen_empty _ E).
Qed.

(** *** The root screen stays *)

Lemma fst_render_if_auto_stack t :
  screen_stack (fst (render_if_auto t)) = screen_stack t.
Proof. destruct (lcd_appends_render_if_auto t) as [calls ->]. reflexivity. Qed.

Lemma back_keeps_root t root rest :
  screen_stack t = root :: rest ->
  exists rest', screen_stack (fst (TinyBlue_back t)) = root :: rest'.
Proof.
  intros Es. destruct rest as [|x rest] using rev_ind.
  - rewrite back_shallow by (rewrite Es; unfold len; simpl; lia). eauto.
  - rewrite (back_nested t (root :: rest) x) by (done || by rewrite Es).
    rewrite fst_render_if_auto_stack. eauto.
Qed.

Lemma open_screen_keeps_root t root rest (path : string) :
  screen_stack t = root :: rest ->
  exists rest', screen_stack (fst (TinyBlue_open_screen path t)) = root :: rest'.
Proof.
  intros Es. unfold TinyBlue_open_screen. unfold M_bind at 1, M_get at 1.
  destruct (screens t !! path) as [screen|]; [|simpl; eauto].
  unfold M_bind, M_modify.
  pose proof (fst_render_if_auto_stack
                (set_screen_stack (screen_stack t ++ [screen]) t)) as E.
  destruct (render_if_auto _) as [t' [[]|e]]; simpl in *;
    rewrite E, Es; eauto.
Qed.

Lemma scroll_keeps_stack t (direction : Z) :
  screen_stack (fst (TinyBlue_scroll direction t)) = screen_stack t.
Proof.
  unfold TinyBlue_scroll, TinyBlue_top_screen.
  unfold M_bind at 1. unfold M_bind at 1, M_get at 1.
  destruct (len (screen_stack t) =? 0); [reflexivity|].
  unfold M_lift at 1.
  destruct (getitem (screen_stack t) _) as [top|e]; [|reflexivity].
  unfold M_bind at 1, M_get at 1. unfold M_bind at 1, M_get at 1.
  unfold M_bind at 1, M_lift at 1.
  destruct (Screen_scroll _ _ _) as [scr'|e]; [|reflexivity].
  unfold M_bind, M_modify.
  pose proof (fst_render_if_auto_stack
                (set_heap (<[top := scr']> (heap t)) t)) as E.
  destruct (render_if_auto _) as [t' [[]|e]]; exact E.
Qed.

Lemma render_keeps_stack t :
  screen_stack (fst (TinyBlue_render t)) = screen_stack t.
Proof. destruct (lcd_appends_render t) as [calls ->]. reflexivity. Qed.

(** The callables keep the bottom of the stack. *)
Hypothesis call_keeps_root : forall f t root rest,
  screen_stack t = root :: rest ->
  exists rest', screen_stack (fst (call f t)) = root :: rest'.

Lemma select_keeps_root t root rest :
  screen_stack t = root :: rest ->
  exists rest', screen_stack (fst (TinyBlue_select call t)) = root :: rest'.
Proof.
  intros Es. unfold TinyBlue_select, TinyBlue_top_screen.
  unfold M_bind at 1. unfold M_bind at 1, M_get at 1.
  destruct (len (screen_stack t) =? 0); [simpl; eauto|].
  unfold M_lift at 1.
  destruct (getitem (screen_stack t) _) as [top|e]; [|simpl; eauto].
  unfold M_bind at 1, M_get at 1. unfold M_bind at 1, M_lift at 1.
  destruct (Screen_get_selected_item _) as [item|e]; [|simpl; eauto].
  destruct (is_back_button item); [by eapply back_keeps_root|].
  destruct (on_click item) as [f|]; [|simpl; eauto].
  unfold M_bind.
  destruct (call_keeps_root f t root rest Es) as [rest1 E1].
  destruct (call f t) as [t1 [[]|e]]; simpl in E1; [|simpl; eauto].
  rewrite fst_render_if_auto_stack. eauto.
Qed.

(** Once a root screen is at the bottom of the stack it stays there: no
    sequence of [scroll], [select], [back], [open_screen] and [render]
    calls removes or replaces it, provided the callables of the items keep
    it too. In particular the stack never becomes empty. *)
Theorem root_screen_stays_at_bottom (ops : list nav_op) t root rest :
  screen_stack t = root :: rest ->
  exists rest', screen_stack (run_ops call ops t) = root :: rest'.
Proof.
  revert t rest. induction ops as [|op ops IH]; intros t rest Es.
  - simpl. eauto.
  - cbn [run_ops].
    assert (exists rest1, screen_stack (fst (run_op call op t)) = root :: rest1)
      as [rest1 E1].
    { destruct op as [d| | |path|]; cbn [run_op].
      - rewrite scroll_keeps_stack. eauto.
      - by eapply select_keeps_root.
      - by eapply back_keeps_root.
      - by eapply open_screen_keeps_root.
      - rewrite render_keeps_stack. eauto. }
    by eapply IH.
Qed.

End TinyBlueMore.

(** * The further properties on the menu of [Demo] *)

Lemma scroll_keeps_selection_on_an_item_witness :
  exists s' it,
    Screen_scroll (-1) 2 Demo.main_screen = Ok s' /\
    items s' = Demo.main_items /\
    Screen_valid s' /\
    0 <= line_index s' < 4 /\
    Screen_get_selected_item s' = Ok it /\
    Demo.main_items !! Z.to_nat (line_index s') = Some it.
Proof.
  apply (scroll_keeps_selection_on_an_item Demo.main_screen (-1) 2).
  - discriminate.
  - unfold Screen_valid. simpl. lia.
Defined.

Lemma scroll_window_stays_within_list_witness :
  exists s,
    Screen_scrolls [1; 1; 1; -1] 2 (mkScreen Demo.main_items 0 0) = Ok s /\
    items s = Demo.main_items /\
    0 <= top_line s <= Z.max 0 (len Demo.main_items - 2) /\
    forall i : nat,
      Z.of_nat i < Z.min 2 (len Demo.main_items) ->
      is_Some (Demo.main_items !! Z.to_nat (top_line s + Z.of_nat i)).
Proof.
  apply (scroll_window_stays_within_list Demo.main_items 2 [1; 1; 1; -1]).
  discriminate.
Defined.

Lemma scroll_back_restores_selection_witness :
  exists s1 s2,
    Screen_scroll 1 2 (mkScreen Demo.main_items 2 3) = Ok s1 /\
    Screen_scroll (- 1) 2 s1 = Ok s2 /\
    line_index s2 = 3.
Proof.
  apply (scroll_back_restores_selection (mkScreen Demo.main_items 2 3) 1 2 2).
  - discriminate.
  - unfold len. simpl. lia.
Defined.

Lemma render_cursor_marks_selected_row_witness :
  (head (Demo.str "<Back           ") = Some " "%char <->
   0 + Z.of_nat 0 <> 0) /\
  (0 + Z.of_nat 0 = 0 -> @None Demo.action = None ->
   head (Demo.str "<Back           ") = Some "<"%char).
Proof.
  apply (render_cursor_marks_selected_row Demo.about_screen 2 16
           [Demo.str "<Back           "; Demo.str " GitHub/Saranomy"] 0
           (Demo.str "<Back           ")
           (Item_init (Demo.str "Back") None true)).
  - simpl. lia.
  - reflexivity.
  - reflexivity.
  - reflexivity.
Defined.

Lemma get_visible_text_negative_width_witness :
  Item_get_visible_text (Item_init (Demo.str "Back") (@None Demo.action) true)
    (-1) = Demo.str "Bac".
Proof.
  apply (get_visible_text_negative_width
           (Item_init (Demo.str "Back") (@None Demo.action) true) (-1)).
  lia.
Defined.

Lemma render_draws_every_row_witness :
  exists rows,
    Screen_render 2 16 Demo.main_screen = Ok rows /\
    TinyBlue_render Demo.tm =
      (set_lcd (lcd Demo.tm ++ rows_calls 0 rows) Demo.tm, Ok tt) /\
    length (rows_calls 0 rows) = 6%nat /\
    forall text, Lcd_putstr text ∈ rows_calls 0 rows -> len text = 16 - 1.
Proof.
  apply (render_draws_every_row Demo.tm [] 1%nat).
  - reflexivity.
  - simpl. lia.
  - simpl. lia.
Defined.

Example render_main_calls :
  render_calls Demo.tm =
    [ Lcd_move_to 0 0; Lcd_putchar (ascii_of_nat 1);
      Lcd_putstr (Demo.str "LED            ");
      Lcd_move_to 0 1; Lcd_putchar " "%char;
      Lcd_putstr (Demo.str "Temp 27.00C    ") ].
Proof. reflexivity. Qed.

Lemma render_without_columns_raises_witness :
  TinyBlue_render Demo.tm_no_column =
    (set_lcd (lcd Demo.tm_no_column ++ [Lcd_move_to 0 0]) Demo.tm_no_column,
     Raise IndexError).
Proof.
  apply (render_without_columns_raises Demo.tm_no_column [] 2%nat).
  - reflexivity.
  - reflexivity.
  - simpl. lia.
  - simpl. lia.
  - simpl. lia.
Defined.

Lemma open_screen_then_back_witness :
  let t2 := fst (TinyBlue_back (fst (TinyBlue_open_screen "/about" Demo.tm))) in
  screen_stack t2 = [1%nat] /\
  screens t2 = screens Demo.tm /\
  heap t2 = <[0%nat := Screen_reset (heap Demo.tm 0%nat)]> (heap Demo.tm) /\
  line_index (heap t2 0%nat) = 0 /\
  top_line (heap t2 0%nat) = 0 /\
  items (heap t2 0%nat) = Demo.about_items.
Proof.
  apply (open_screen_then_back Demo.tm "/about" 0%nat).
  - discriminate.
  - reflexivity.
Defined.

Lemma scroll_touches_only_top_screen_witness :
  let t' := fst (TinyBlue_scroll 1 Demo.tm_about) in
  exists scr',
    Screen_scroll 1 2 Demo.about_screen = Ok scr' /\
    heap t' 0%nat = scr' /\
    (forall other, other <> 0%nat -> heap t' other = heap Demo.tm_about other) /\
    screen_stack t' = [1%nat; 0%nat] /\
    screens t' = screens Demo.tm_about /\
    exists calls, lcd t' = lcd Demo.tm_about ++ calls.
Proof.
  apply (scroll_touches_only_top_screen Demo.tm_about [1%nat] 0%nat 1).
  - reflexivity.
  - discriminate.
Defined.

Lemma empty_top_screen_raises_witness :
  (forall direction,
     TinyBlue_scroll direction Demo.tm_empty_root =
       (Demo.tm_empty_root, Raise ZeroDivisionError)) /\
  TinyBlue_select Demo.call Demo.tm_empty_root =
    (Demo.tm_empty_root, Raise IndexError).
Proof.
  apply (empty_top_screen_raises Demo.call Demo.tm_empty_root [] 2%nat).
  - reflexivity.
  - reflexivity.
Defined.

Lemma select_plain_item_is_noop_witness :
  let t := fst (TinyBlue_scroll 1 Demo.tm) in
  TinyBlue_select Demo.call t = (t, Ok tt).
Proof.
  cbv zeta.
  apply (select_plain_item_is_noop Demo.call (fst (TinyBlue_scroll 1 Demo.tm))
           [] 1%nat (Item_init (Demo.str "Temp 27.00C") None false)).
  - reflexivity.
  - reflexivity.
  - reflexivity.
  - reflexivity.
Defined.

Lemma Demo_call_keeps_root (f : Demo.action) (t : TinyBlue Demo.action)
    (root : nat) (rest : list nat) :
  screen_stack t = root :: rest ->
  exists rest', screen_stack (fst (Demo.call f t)) = root :: rest'.
Proof. destruct f as [path]. apply open_screen_keeps_root. Qed.

Lemma root_screen_stays_at_bottom_witness :
  exists rest',
    screen_stack
      (run_ops Demo.call
         [Op_scroll (-1); Op_select; Op_scroll 1; Op_select; Op_back; Op_back;
          Op_open_screen "/about"; Op_render]
         Demo.tm) = 1%nat :: rest'.
Proof.
  apply (root_screen_stays_at_bottom Demo.call Demo_call_keeps_root
           [Op_scroll (-1); Op_select; Op_scroll 1; Op_select; Op_back; Op_back;
            Op_open_screen "/about"; Op_render]
           Demo.tm 1%nat []).
  reflexivity.
Defined.

Lemma without_root_screen_nothing_to_show_witness :
  let t := add_screens [("/about"%string, 0%nat); ("/led"%string, 2%nat)]
             (TinyBlue_init [] 2 16 Demo.objects) in
  screen_stack t = [] /\
  (forall path screen,
     (path, screen) ∈ [("/about"%string, 0%nat); ("/led"%string, 2%nat)] ->
     is_Some (screens t !! path)) /\
  TinyBlue_render t = (t, Raise no_screen).
Proof.
  apply (without_root_screen_nothing_to_show
           [("/about"%string, 0%nat); ("/led"%string, 2%nat)] [] 2 16
           Demo.objects).
  repeat (constructor; [discriminate|]). constructor.
Defined.
